(** * IAM policy risk analysis (aws-iam-viewer, [src/lib/policy-analysis])

    A shallow embedding of [analyzePolicy], [analyzeAllPolicies],
    [getHighRiskPolicies] and [getSecuritySummary], together with the
    [DANGEROUS_PATTERNS] table they read, and the properties of the
    analyzer stated over that embedding.

    The analyzer is JavaScript running over data that came out of
    [JSON.parse]; nothing at run time enforces the TypeScript annotations.
    The embedding therefore works over untyped JavaScript values and makes
    the one observable failure mode, a thrown [TypeError], explicit. *)

From Stdlib Require Import ZArith Ascii String.
From stdpp Require Import base strings gmap list.


#[local] Set Warnings "-register-all".

(** ** Exceptions *)

Inductive exception : Type := TypeError.

Inductive result (A : Type) : Type :=
  | Ok (a : A)
  | Throw (e : exception).
Arguments Ok {A} a.
Arguments Throw {A} e.

#[global] Instance result_ret : MRet result := @Ok.
#[global] Instance result_bind : MBind result :=
  λ A B f m, match m with Ok a => f a | Throw e => Throw e end.

(** ** JavaScript values

    Values are trees, as [JSON.parse] builds them: two object or array
    nodes are never the same reference.  A number is kept as an integer
    code, distinct numbers with distinct codes and zero with code 0: the
    analyzer only asks of a number whether it is zero (truthiness), whether
    it is a string (never) and whether it is strictly equal to another
    number.  An object is a finite map from property names to values: the
    analyzer never enumerates the keys of a policy, version, document or
    statement.  [VUndefined] is what reading an absent property gives; it
    does not occur inside a value that [JSON.parse] built. *)

Inductive value : Type :=
  | VUndefined
  | VNull
  | VBool (b : bool)
  | VNum (n : Z)
  | VStr (s : string)
  | VArr (items : list value)
  | VObj (props : gmap string value).

Module JS.

(** [!v] is [negb (ToBoolean v)]. *)
Definition ToBoolean (v : value) : bool :=
  match v with
  | VUndefined | VNull => false
  | VBool b => b
  | VNum n => negb (n =? 0)%Z
  | VStr EmptyString => false
  | VStr _ => true
  | VArr _ | VObj _ => true
  end.

(** [typeof v === 'string'] *)
Definition typeof_string (v : value) : bool :=
  match v with VStr _ => true | _ => false end.


(** [a === b].  Objects and arrays compare by reference, and distinct
    nodes of a JSON tree are distinct references. *)
Definition strict_equals (a b : value) : bool :=
  match a, b with
  | VUndefined, VUndefined => true
  | VNull, VNull => true
  | VBool x, VBool y => Bool.eqb x y
  | VNum x, VNum y => (x =? y)%Z
  | VStr x, VStr y => String.eqb x y
  | _, _ => false
  end.

(** [o.k] for the property names the analyzer reads ([PolicyVersionList],
    [DefaultVersionId], [PolicyId], [PolicyName], [VersionId], [Document],
    [Statement], [Effect], [Action], [Resource]); none of them is defined
    on a built-in prototype, so on a string, number, boolean or array the
    read gives [undefined].  Reading a property of [null] or [undefined]
    throws. *)
Definition get (o : value) (k : string) : result value :=
  match o with
  | VUndefined | VNull => Throw TypeError
  | VObj props => Ok (default VUndefined (props !! k))
  | VBool _ | VNum _ | VStr _ | VArr _ => Ok VUndefined
  end.

(** The property [k] of [o] when [o] is an object that has it. *)
Definition own_property (o : value) (k : string) : option value :=
  match o with VObj props => props !! k | _ => None end.

(** [Array.prototype.find]: the first element the predicate accepts,
    [undefined] when there is none; a throwing predicate aborts the scan. *)
Fixpoint Array_find (predicate : value → result bool) (items : list value)
  : result value :=
  match items with
  | [] => Ok VUndefined
  | v :: rest =>
      b ← predicate v;
      if b : bool then Ok v else Array_find predicate rest
  end.

(** [receiver.find(predicate)].  Only an array has a callable [find]:
    on [undefined]/[null] the property read throws, on anything else the
    property is [undefined] or a JSON value, and calling it throws. *)
Definition call_find (receiver : value) (predicate : value → result bool)
  : result value :=
  match receiver with
  | VArr items => Array_find predicate items
  | _ => Throw TypeError
  end.

(** [Array.prototype.forEach] with a callback that updates captured state
    [St] (here: the [flags] array it pushes to). *)
Fixpoint forEach {St : Type} (callback : value → nat → St → result St)
    (items : list value) (index : nat) (s : St) : result St :=
  match items with
  | [] => Ok s
  | v :: rest => s' ← callback v index s; forEach callback rest (S index) s'
  end.

(** [Array.prototype.map] with a callback that may throw. *)
Fixpoint Array_map {A B : Type} (callback : A → result B) (items : list A)
  : result (list B) :=
  match items with
  | [] => Ok []
  | v :: rest =>
      b ← callback v; bs ← Array_map callback rest; Ok (b :: bs)
  end.

(** [arr.some(f)] *)
Definition some {A : Type} (f : A → bool) (arr : list A) : bool :=
  existsb f arr.

(** [arr.includes(x)] on an array of strings. *)
Definition includes (arr : list string) (x : string) : bool :=
  existsb (String.eqb x) arr.

(** [arr.filter((a): a is string => typeof a === 'string')] *)
Fixpoint filter_strings (arr : list value) : list string :=
  match arr with
  | [] => []
  | VStr s :: rest => s :: filter_strings rest
  | _ :: rest => filter_strings rest
  end.

(** A regular expression literal of the shape [/^lit$/] with no flags:
    both anchors, every character of [lit] literal (a star is written
    escaped in the source). *)
Inductive RegExp : Type := AnchoredLiteral (lit : string).

Definition test (r : RegExp) (s : string) : bool :=
  match r with AnchoredLiteral lit => String.eqb lit s end.

End JS.

(** ** Findings and results *)

Inductive Severity : Type := HIGH | MEDIUM | LOW.

#[global] Instance Severity_eq_dec : EqDecision Severity.
Proof. solve_decision. Defined.

Module Pattern.
(** One entry of [DANGEROUS_PATTERNS].  [P] is the type of its
    [pattern] / [patterns] field: a regular expression, a string, a list
    of strings, or [unit] for the entry that has neither. *)
Record t (P : Type) : Type := Make {
  pattern : P;
  severity : Severity;
  title : string;
  description : string;
  recommendation : string
}.
Arguments Make {P}.
Arguments pattern {P}.
Arguments severity {P}.
Arguments title {P}.
Arguments description {P}.
Arguments recommendation {P}.
Definition patterns {P : Type} : t P → P := pattern.
End Pattern.

Record SecurityFlag : Type := {
  id : string;
  severity : Severity;
  title : string;
  description : string;
  recommendation : string;
  affectedStatements : list nat
}.

Record PolicyAnalysisResult : Type := {
  policyId : value;
  policyName : value;
  flags : list SecurityFlag;
  isHighRisk : bool
}.

Record SecuritySummary : Type := {
  totalPolicies : nat;
  highRiskPolicies : nat;
  totalSecurityFlags : nat;
  highSeverityFlags : nat
}.

(** ** The pattern table

    [DANGEROUS_PATTERNS], entry by entry.  The analyzer reads [severity],
    [title], [description] and [recommendation] of every entry, and
    [pattern] / [patterns] of some; where it spells the action names out
    again instead, so does the embedding. *)

Module DANGEROUS_PATTERNS.
Import Pattern.

(** The character 34, which the description of [WILDCARD_RESOURCE] puts
    around its star. *)
Definition dquote : string := String "034"%char EmptyString.

Definition WILDCARD_PERMISSION : Pattern.t JS.RegExp := {|
  pattern := JS.AnchoredLiteral "*";
  severity := HIGH;
  title := "Wildcard Permission";
  description := "Policy grants wildcard permissions (*)";
  recommendation := "Replace with specific permissions following the principle of least privilege"
|}.

Definition WILDCARD_IAM : Pattern.t JS.RegExp := {|
  pattern := JS.AnchoredLiteral "iam:*";
  severity := HIGH;
  title := "Wildcard IAM Permission";
  description := "Policy grants wildcard IAM permissions (iam:*)";
  recommendation := "Replace with specific IAM permissions following the principle of least privilege"
|}.

Definition WILDCARD_RESOURCE : Pattern.t unit := {|
  pattern := tt;
  severity := HIGH;
  title := "Wildcard Resource";
  description := "Policy allows all resources (" +:+ dquote +:+ "*" +:+ dquote +:+ ")";
  recommendation := "Restrict resources to specific ARNs and scopes"
|}.

Definition CREATE_POLICY_VERSION : Pattern.t string := {|
  pattern := "iam:CreatePolicyVersion";
  severity := HIGH;
  title := "Create Policy Version";
  description := "Policy allows creating a new policy version that can be set as default to escalate privileges";
  recommendation := "Restrict iam:CreatePolicyVersion; limit which policies can be versioned and require approvals"
|}.

Definition POLICY_VERSION_MANIPULATION : Pattern.t (list string) := {|
  pattern := ["iam:CreatePolicyVersion"; "iam:SetDefaultPolicyVersion"];
  severity := HIGH;
  title := "Policy Version Manipulation";
  description := "Policy allows creation or activation of policy versions";
  recommendation := "Restrict policy version management to administrative roles only"
|}.

Definition PASSROLE_ANY : Pattern.t string := {|
  pattern := "iam:PassRole";
  severity := HIGH;
  title := "PassRole Permission Present";
  description := "Policy allows passing roles to AWS services, a common prerequisite for privilege escalation";
  recommendation := "Scope iam:PassRole with resource ARNs and conditions (iam:PassedToService, aws:ResourceTag) and apply permission boundaries"
|}.

Definition PASSROLE_EC2 : Pattern.t (list string) := {|
  pattern := ["iam:PassRole"; "ec2:RunInstances"];
  severity := HIGH;
  title := "Privilege Escalation via EC2";
  description := "Policy allows passing roles to EC2 instances, enabling privilege escalation";
  recommendation := "Restrict PassRole to specific roles or remove ec2:RunInstances permission"
|}.

Definition ACCESS_KEY_CREATION : Pattern.t string := {|
  pattern := "iam:CreateAccessKey";
  severity := HIGH;
  title := "Access Key Creation";
  description := "Policy allows creation of access keys";
  recommendation := "Restrict access key creation to administrative users only"
|}.

Definition LOGIN_PROFILE_MANIPULATION : Pattern.t (list string) := {|
  pattern := ["iam:CreateLoginProfile"; "iam:UpdateLoginProfile"];
  severity := HIGH;
  title := "Login Profile Manipulation";
  description := "Policy allows manipulation of user login profiles";
  recommendation := "Restrict login profile management to administrative roles"
|}.

Definition POLICY_ATTACHMENT : Pattern.t (list string) := {|
  pattern := ["iam:AttachUserPolicy"; "iam:AttachGroupPolicy"; "iam:AttachRolePolicy"];
  severity := HIGH;
  title := "Policy Attachment Permissions";
  description := "Policy allows attaching policies to users, groups, or roles";
  recommendation := "Restrict policy attachment to administrative roles only"
|}.

Definition INLINE_POLICY_MANIPULATION : Pattern.t (list string) := {|
  pattern := ["iam:PutUserPolicy"; "iam:PutGroupPolicy"; "iam:PutRolePolicy"];
  severity := HIGH;
  title := "Inline Policy Manipulation";
  description := "Policy allows creation/modification of inline policies";
  recommendation := "Restrict inline policy management to administrative roles"
|}.

Definition GROUP_MEMBERSHIP : Pattern.t string := {|
  pattern := "iam:AddUserToGroup";
  severity := MEDIUM;
  title := "Group Membership Modification";
  description := "Policy allows adding users to groups";
  recommendation := "Restrict group membership changes to administrative roles"
|}.

Definition ASSUME_ROLE_POLICY_UPDATE : Pattern.t string := {|
  pattern := "iam:UpdateAssumeRolePolicy";
  severity := HIGH;
  title := "Assume Role Policy Modification";
  description := "Policy allows modification of assume role policies";
  recommendation := "Restrict assume role policy updates to administrative roles"
|}.

Definition LAMBDA_PRIVILEGE_ESCALATION : Pattern.t (list string) := {|
  pattern := ["iam:PassRole"; "lambda:CreateFunction"; "lambda:InvokeFunction"];
  severity := HIGH;
  title := "Lambda Privilege Escalation";
  description := "Policy allows creating Lambda functions with arbitrary roles";
  recommendation := "Restrict PassRole to specific roles or remove Lambda creation permissions"
|}.

Definition LAMBDA_EVENT_SOURCE_MANIPULATION : Pattern.t (list string) := {|
  pattern := ["iam:PassRole"; "lambda:CreateFunction"; "lambda:CreateEventSourceMapping"];
  severity := HIGH;
  title := "Lambda Event Source Manipulation";
  description := "Policy allows creating Lambda functions and event source mappings";
  recommendation := "Restrict Lambda event source management to specific roles"
|}.

Definition LAMBDA_CODE_UPDATE : Pattern.t string := {|
  pattern := "lambda:UpdateFunctionCode";
  severity := MEDIUM;
  title := "Lambda Code Modification";
  description := "Policy allows updating Lambda function code";
  recommendation := "Restrict Lambda code updates to authorized developers"
|}.

Definition GLUE_PRIVILEGE_ESCALATION : Pattern.t (list string) := {|
  pattern := ["iam:PassRole"; "glue:CreateDevEndpoint"; "glue:GetDevEndpoint"];
  severity := HIGH;
  title := "Glue Privilege Escalation";
  description := "Policy allows creating Glue development endpoints with arbitrary roles";
  recommendation := "Restrict PassRole to specific Glue roles or remove dev endpoint creation"
|}.

Definition GLUE_ENDPOINT_MANIPULATION : Pattern.t (list string) := {|
  pattern := ["glue:UpdateDevEndpoint"; "glue:GetDevEndpoint"];
  severity := MEDIUM;
  title := "Glue Endpoint Manipulation";
  description := "Policy allows modification of Glue development endpoints";
  recommendation := "Restrict Glue endpoint management to authorized users"
|}.

Definition CLOUDFORMATION_PRIVILEGE_ESCALATION : Pattern.t (list string) := {|
  pattern := ["iam:PassRole"; "cloudformation:CreateStack"; "cloudformation:DescribeStacks"];
  severity := HIGH;
  title := "CloudFormation Privilege Escalation";
  description := "Policy allows creating CloudFormation stacks with arbitrary roles";
  recommendation := "Restrict PassRole to specific CloudFormation roles"
|}.

Definition DATAPIPELINE_PRIVILEGE_ESCALATION : Pattern.t (list string) := {|
  pattern := ["iam:PassRole"; "datapipeline:CreatePipeline"; "datapipeline:PutPipelineDefinition"; "datapipeline:ActivatePipeline"];
  severity := HIGH;
  title := "Data Pipeline Privilege Escalation";
  description := "Policy allows creating and managing data pipelines with arbitrary roles";
  recommendation := "Restrict PassRole to specific Data Pipeline roles"
|}.

End DANGEROUS_PATTERNS.

(** ** The analyzer *)

Import DANGEROUS_PATTERNS.

(** The object literal every [flags.push] builds from a table entry. *)
Definition flag {P : Type} (id : string) (entry : Pattern.t P)
    (statementIndex : nat) : SecurityFlag := {|
  id := id;
  severity := Pattern.severity entry;
  title := Pattern.title entry;
  description := Pattern.description entry;
  recommendation := Pattern.recommendation entry;
  affectedStatements := [statementIndex]
|}.

(** [if (c) { flags.push(f); }] on the captured [flags] array. *)
Definition push_if (c : bool) (f : SecurityFlag) (flags : list SecurityFlag)
  : list SecurityFlag :=
  if c then flags ++ [f] else flags.

(** [const actionsRaw = Array.isArray(statement.Action) ? statement.Action
    : [statement.Action]] *)
Definition actionsRaw_of (Action : value) : list value :=
  match Action with VArr items => items | _ => [Action] end.

(** [const resources = Array.isArray(resourceRaw) ? resourceRaw
    : resourceRaw !== undefined ? [resourceRaw] : []] *)
Definition resources_of (resourceRaw : value) : list value :=
  match resourceRaw with
  | VArr items => items
  | VUndefined => []
  | _ => [resourceRaw]
  end.

(** The twenty checks of the [forEach] callback, in the order the callback
    makes them, on the normalized [actions] and [resources] of one
    statement; [flags] is the array of the enclosing call, threaded
    through. *)
Definition check_statement (actions : list string) (resources : list value)
    (statementIndex : nat) (flags : list SecurityFlag) : list SecurityFlag :=
  let flags := push_if
    (JS.some (λ r, JS.typeof_string r && JS.strict_equals r (VStr "*")) resources)
    (flag "wildcard-resource" WILDCARD_RESOURCE statementIndex) flags in
  let flags := push_if
    (JS.some (λ a, JS.test (Pattern.pattern WILDCARD_PERMISSION) a) actions)
    (flag "wildcard-permission" WILDCARD_PERMISSION statementIndex) flags in
  let flags := push_if
    (JS.some (λ action, JS.test (Pattern.pattern WILDCARD_IAM) action) actions)
    (flag "wildcard-iam" WILDCARD_IAM statementIndex) flags in
  let flags := push_if
    (JS.includes actions (Pattern.pattern CREATE_POLICY_VERSION))
    (flag "create-policy-version" CREATE_POLICY_VERSION statementIndex) flags in
  let flags := push_if
    (JS.some (λ action,
       JS.includes (Pattern.patterns POLICY_VERSION_MANIPULATION) action) actions)
    (flag "policy-version-manipulation" POLICY_VERSION_MANIPULATION statementIndex)
    flags in
  let flags := push_if
    (JS.includes actions (Pattern.pattern PASSROLE_ANY))
    (flag "passrole-any" PASSROLE_ANY statementIndex) flags in
  let flags := push_if
    (JS.includes actions "iam:PassRole" && JS.includes actions "ec2:RunInstances")
    (flag "passrole-ec2" PASSROLE_EC2 statementIndex) flags in
  let flags := push_if
    (JS.includes actions "iam:CreateAccessKey")
    (flag "access-key-creation" ACCESS_KEY_CREATION statementIndex) flags in
  let flags := push_if
    (JS.some (λ action,
       JS.includes (Pattern.patterns LOGIN_PROFILE_MANIPULATION) action) actions)
    (flag "login-profile-manipulation" LOGIN_PROFILE_MANIPULATION statementIndex)
    flags in
  let flags := push_if
    (JS.some (λ action,
       JS.includes (Pattern.patterns POLICY_ATTACHMENT) action) actions)
    (flag "policy-attachment" POLICY_ATTACHMENT statementIndex) flags in
  let flags := push_if
    (JS.some (λ action,
       JS.includes (Pattern.patterns INLINE_POLICY_MANIPULATION) action) actions)
    (flag "inline-policy-manipulation" INLINE_POLICY_MANIPULATION statementIndex)
    flags in
  let flags := push_if
    (JS.includes actions "iam:AddUserToGroup")
    (flag "group-membership" GROUP_MEMBERSHIP statementIndex) flags in
  let flags := push_if
    (JS.includes actions "iam:UpdateAssumeRolePolicy")
    (flag "assume-role-policy-update" ASSUME_ROLE_POLICY_UPDATE statementIndex)
    flags in
  let flags := push_if
    (JS.includes actions "iam:PassRole"
     && JS.includes actions "lambda:CreateFunction"
     && JS.includes actions "lambda:InvokeFunction")
    (flag "lambda-privilege-escalation" LAMBDA_PRIVILEGE_ESCALATION statementIndex)
    flags in
  let flags := push_if
    (JS.includes actions "iam:PassRole"
     && JS.includes actions "lambda:CreateFunction"
     && JS.includes actions "lambda:CreateEventSourceMapping")
    (flag "lambda-event-source-manipulation" LAMBDA_EVENT_SOURCE_MANIPULATION
       statementIndex)
    flags in
  let flags := push_if
    (JS.includes actions "lambda:UpdateFunctionCode")
    (flag "lambda-code-update" LAMBDA_CODE_UPDATE statementIndex) flags in
  let flags := push_if
    (JS.includes actions "iam:PassRole"
     && JS.includes actions "glue:CreateDevEndpoint"
     && JS.includes actions "glue:GetDevEndpoint")
    (flag "glue-privilege-escalation" GLUE_PRIVILEGE_ESCALATION statementIndex)
    flags in
  let flags := push_if
    (JS.includes actions "glue:UpdateDevEndpoint"
     && JS.includes actions "glue:GetDevEndpoint")
    (flag "glue-endpoint-manipulation" GLUE_ENDPOINT_MANIPULATION statementIndex)
    flags in
  let flags := push_if
    (JS.includes actions "iam:PassRole"
     && JS.includes actions "cloudformation:CreateStack"
     && JS.includes actions "cloudformation:DescribeStacks")
    (flag "cloudformation-privilege-escalation" CLOUDFORMATION_PRIVILEGE_ESCALATION
       statementIndex)
    flags in
  let flags := push_if
    (JS.includes actions "iam:PassRole"
     && JS.includes actions "datapipeline:CreatePipeline"
     && JS.includes actions "datapipeline:PutPipelineDefinition"
     && JS.includes actions "datapipeline:ActivatePipeline")
    (flag "datapipeline-privilege-escalation" DATAPIPELINE_PRIVILEGE_ESCALATION
       statementIndex)
    flags in
  flags.

(** The callback handed to [statements.forEach]: the [Effect] gate, the
    two normalizations, then the checks. *)
Definition statement_callback (statement : value) (statementIndex : nat)
    (flags : list SecurityFlag) : result (list SecurityFlag) :=
  Effect ← JS.get statement "Effect";
  if negb (JS.strict_equals Effect (VStr "Allow")) then Ok flags else
  Action ← JS.get statement "Action";
  let actions := JS.filter_strings (actionsRaw_of Action) in
  resourceRaw ← JS.get statement "Resource";
  let resources := resources_of resourceRaw in
  Ok (check_statement actions resources statementIndex flags).

(** The head of [analyzePolicy]: find the default version and its document.
    [None] is the early return (no default version, or a falsy
    [Document]). *)
Definition defaultDocument (policy : value) : result (option value) :=
  PolicyVersionList ← JS.get policy "PolicyVersionList";
  defaultVersion ← JS.call_find PolicyVersionList (λ v,
    VersionId ← JS.get v "VersionId";
    DefaultVersionId ← JS.get policy "DefaultVersionId";
    Ok (JS.strict_equals VersionId DefaultVersionId));
  if negb (JS.ToBoolean defaultVersion) then Ok None else
  Document ← JS.get defaultVersion "Document";
  if negb (JS.ToBoolean Document) then Ok None else
  Ok (Some Document).

(** [Array.isArray(document.Statement) ? document.Statement
    : document.Statement ? [document.Statement] : []] *)
Definition statements_of (document : value) : result (list value) :=
  Statement ← JS.get document "Statement";
  Ok (match Statement with
      | VArr items => items
      | _ => if JS.ToBoolean Statement then [Statement] else []
      end).

Definition analyzePolicy (policy : value) : result PolicyAnalysisResult :=
  found ← defaultDocument policy;
  match found with
  | None =>
      PolicyId ← JS.get policy "PolicyId";
      PolicyName ← JS.get policy "PolicyName";
      Ok {| policyId := PolicyId; policyName := PolicyName;
            flags := []; isHighRisk := false |}
  | Some document =>
      statements ← statements_of document;
      flags ← JS.forEach statement_callback statements 0 [];
      PolicyId ← JS.get policy "PolicyId";
      PolicyName ← JS.get policy "PolicyName";
      Ok {| policyId := PolicyId; policyName := PolicyName;
            flags := flags;
            isHighRisk :=
              JS.some (λ flag, bool_decide (severity flag = HIGH)) flags |}
  end.

(** [policies] is a [Record<string, IAMPolicy>]: its own properties, in the
    order [Object.values] enumerates them. *)
Definition Object_values {A : Type} (record : list (string * A)) : list A :=
  map snd record.

Definition analyzeAllPolicies (policies : list (string * value))
  : result (list PolicyAnalysisResult) :=
  JS.Array_map analyzePolicy (Object_values policies).

Definition getHighRiskPolicies (policies : list (string * value))
  : result (list PolicyAnalysisResult) :=
  analysisResults ← analyzeAllPolicies policies;
  Ok (List.filter (λ result, isHighRisk result) analysisResults).

Definition getSecuritySummary (policies : list (string * value))
  : result SecuritySummary :=
  analysisResults ← analyzeAllPolicies policies;
  let highRiskCount :=
    length (List.filter (λ r, isHighRisk r) analysisResults) in
  let totalFlags :=
    fold_left (λ sum r, sum + length (flags r)) analysisResults 0 in
  let highSeverityFlags :=
    fold_left (λ sum r,
      sum + length (List.filter (λ f, bool_decide (severity f = HIGH)) (flags r)))
      analysisResults 0 in
  Ok {| totalPolicies := length analysisResults;
        highRiskPolicies := highRiskCount;
        totalSecurityFlags := totalFlags;
        highSeverityFlags := highSeverityFlags |}.

(** ** Views of the analyzer used in the statements below *)

(** The statement sequence the [forEach] runs over: the normalized
    [Statement] of the default document, and no statement on the early
    return. *)
Definition normalized_statements (policy : value) : result (list value) :=
  found ← defaultDocument policy;
  match found with
  | None => Ok []
  | Some document => statements_of document
  end.

(** What the callback adds to [flags] for one statement. *)
Definition statement_flags (statement : value) (statementIndex : nat)
  : result (list SecurityFlag) :=
  statement_callback statement statementIndex [].

(** What the callback adds, statement by statement, for the statements at
    positions [index], [index + 1], ... *)
Fixpoint per_statement_flags (statements : list value) (index : nat)
  : result (list (list SecurityFlag)) :=
  match statements with
  | [] => Ok []
  | statement :: rest =>
      new ← statement_flags statement index;
      others ← per_statement_flags rest (S index);
      Ok (new :: others)
  end.

(** The predicate [find] is called with, as a total function: [v] is the
    default version of [policy]. *)
Definition is_default_version (policy v : value) : bool :=
  match JS.get v "VersionId", JS.get policy "DefaultVersionId" with
  | Ok VersionId, Ok DefaultVersionId =>
      JS.strict_equals VersionId DefaultVersionId
  | _, _ => false
  end.

(** [v] is [null] or [undefined]: a property read on it throws. *)
Definition nullish (v : value) : bool :=
  match v with VUndefined | VNull => true | _ => false end.

Definition is_object (v : value) : bool :=
  match v with VObj _ => true | _ => false end.

(** The entries of a version list that [find] calls its predicate on:
    those up to and including the first default version, all of them when
    there is none. *)
Fixpoint reached (policy : value) (versions : list value) : list value :=
  match versions with
  | [] => []
  | v :: rest =>
      v :: (if is_default_version policy v then [] else reached policy rest)
  end.

(** ** The analysis as the design document words it

    A second, independent definition: the rule table of the design
    document (section 4.1) as data, and its evaluation loop (section 4.2).
    Nothing here is taken from the code. *)

Module Spec.

Inductive match_spec : Type :=
  | ActionIs (lit : string)
  | ResourceWildcard
  | AnyOf (lits : list string)
  | AllOf (lits : list string).

Record rule : Type := {
  key : string;
  rule_severity : Severity;
  trigger : match_spec
}.

Record finding : Type := {
  rule_key : string;
  finding_severity : Severity;
  statement_indices : list nat
}.

#[global] Instance finding_eq_dec : EqDecision finding.
Proof. solve_decision. Defined.

(** The table of section 4.1, row by row. *)
Definition catalog : list rule := [
  {| key := "wildcard-permission"; rule_severity := HIGH;
     trigger := ActionIs "*" |};
  {| key := "wildcard-iam"; rule_severity := HIGH;
     trigger := ActionIs "iam:*" |};
  {| key := "wildcard-resource"; rule_severity := HIGH;
     trigger := ResourceWildcard |};
  {| key := "create-policy-version"; rule_severity := HIGH;
     trigger := ActionIs "iam:CreatePolicyVersion" |};
  {| key := "policy-version-manipulation"; rule_severity := HIGH;
     trigger := AnyOf ["iam:CreatePolicyVersion"; "iam:SetDefaultPolicyVersion"] |};
  {| key := "passrole-any"; rule_severity := HIGH;
     trigger := ActionIs "iam:PassRole" |};
  {| key := "passrole-ec2"; rule_severity := HIGH;
     trigger := AllOf ["iam:PassRole"; "ec2:RunInstances"] |};
  {| key := "access-key-creation"; rule_severity := HIGH;
     trigger := ActionIs "iam:CreateAccessKey" |};
  {| key := "login-profile-manipulation"; rule_severity := HIGH;
     trigger := AnyOf ["iam:CreateLoginProfile"; "iam:UpdateLoginProfile"] |};
  {| key := "policy-attachment"; rule_severity := HIGH;
     trigger := AnyOf ["iam:AttachUserPolicy"; "iam:AttachGroupPolicy";
                       "iam:AttachRolePolicy"] |};
  {| key := "inline-policy-manipulation"; rule_severity := HIGH;
     trigger := AnyOf ["iam:PutUserPolicy"; "iam:PutGroupPolicy";
                       "iam:PutRolePolicy"] |};
  {| key := "group-membership"; rule_severity := MEDIUM;
     trigger := ActionIs "iam:AddUserToGroup" |};
  {| key := "assume-role-policy-update"; rule_severity := HIGH;
     trigger := ActionIs "iam:UpdateAssumeRolePolicy" |};
  {| key := "lambda-privilege-escalation"; rule_severity := HIGH;
     trigger := AllOf ["iam:PassRole"; "lambda:CreateFunction";
                       "lambda:InvokeFunction"] |};
  {| key := "lambda-event-source-manipulation"; rule_severity := HIGH;
     trigger := AllOf ["iam:PassRole"; "lambda:CreateFunction";
                       "lambda:CreateEventSourceMapping"] |};
  {| key := "lambda-code-update"; rule_severity := MEDIUM;
     trigger := ActionIs "lambda:UpdateFunctionCode" |};
  {| key := "glue-privilege-escalation"; rule_severity := HIGH;
     trigger := AllOf ["iam:PassRole"; "glue:CreateDevEndpoint";
                       "glue:GetDevEndpoint"] |};
  {| key := "glue-endpoint-manipulation"; rule_severity := MEDIUM;
     trigger := AllOf ["glue:UpdateDevEndpoint"; "glue:GetDevEndpoint"] |};
  {| key := "cloudformation-privilege-escalation"; rule_severity := HIGH;
     trigger := AllOf ["iam:PassRole"; "cloudformation:CreateStack";
                       "cloudformation:DescribeStacks"] |};
  {| key := "datapipeline-privilege-escalation"; rule_severity := HIGH;
     trigger := AllOf ["iam:PassRole"; "datapipeline:CreatePipeline";
                       "datapipeline:PutPipelineDefinition";
                       "datapipeline:ActivatePipeline"] |}
].

(** A field of a statement; absent on anything that is not an object. *)
Definition field (statement : value) (name : string) : option value :=
  match statement with VObj props => props !! name | _ => None end.

(** The effect of a statement, when it has one and it is a string. *)
Definition effect (statement : value) : option string :=
  match field statement "Effect" with
  | Some (VStr e) => Some e
  | _ => None
  end.

(** A single string or a sequence, normalized to the sequence of its
    strings; entries that are not strings are dropped. *)
Definition normalize (v : option value) : list string :=
  match v with
  | Some (VStr s) => [s]
  | Some (VArr items) =>
      omap (λ item, match item with VStr s => Some s | _ => None end) items
  | _ => []
  end.

Definition fires (r : rule) (actions resources : list string) : bool :=
  match trigger r with
  | ActionIs lit => bool_decide (lit ∈ actions)
  | ResourceWildcard => bool_decide ("*" ∈ resources)
  | AnyOf lits => bool_decide (Exists (λ lit, lit ∈ actions) lits)
  | AllOf lits => bool_decide (Forall (λ lit, lit ∈ actions) lits)
  end.

(** The matches of one statement, one finding per firing rule, in the order
    of [rules]; nothing for a statement whose effect is not [Allow]. *)
Definition statement_findings (rules : list rule) (index : nat)
    (statement : value) : list finding :=
  if bool_decide (effect statement = Some "Allow") then
    let actions := normalize (field statement "Action") in
    let resources := normalize (field statement "Resource") in
    flat_map (λ r,
      if fires r actions resources
      then [{| rule_key := key r; finding_severity := rule_severity r;
               statement_indices := [index] |}]
      else []) rules
  else [].

(** Findings across statements in statement order. *)
Definition findings (rules : list rule) (statements : list value)
  : list finding :=
  concat (imap (statement_findings rules) statements).

(** The table with the [wildcard-resource] row moved to the front and every
    other row where it was. *)
Definition resource_rule_first : list rule :=
  List.filter (λ r, String.eqb (key r) "wildcard-resource") catalog
  ++ List.filter (λ r, negb (String.eqb (key r) "wildcard-resource")) catalog.

End Spec.

(** The document [analyzePolicy] goes on with, on a policy whose version
    list is an array without [null] entries: the [Document] of the first
    version [find] accepts, when both are truthy. *)
Definition default_document_of (policy : value) (versions : list value)
  : option value :=
  match List.find (is_default_version policy) versions with
  | Some v =>
      if JS.ToBoolean v then
        let d := default VUndefined (JS.own_property v "Document") in
        if JS.ToBoolean d then Some d else None
      else None
  | None => None
  end.

(** A statement the checks have nothing to say about: not an object, or
    without the effect [Allow], or with neither [Action] nor [Resource]. *)
Definition nothing_to_inspect (st : value) : Prop :=
  is_object st = false
  ∨ JS.get st "Effect" ≠ Ok (VStr "Allow")
  ∨ (JS.own_property st "Action" = None ∧ JS.own_property st "Resource" = None).

(** What a flag of the code amounts to in the vocabulary of [Spec]. *)
Definition finding_of (f : SecurityFlag) : Spec.finding := {|
  Spec.rule_key := id f;
  Spec.finding_severity := severity f;
  Spec.statement_indices := affectedStatements f
|}.

(** ** Inputs used as examples *)

Definition obj (props : list (string * value)) : value :=
  VObj (list_to_map props).

(** A policy with one version, which is the default, holding [document]. *)
Definition policy_with_document (name : string) (document : value) : value :=
  obj [("PolicyName", VStr name); ("PolicyId", VStr name);
       ("DefaultVersionId", VStr "v1");
       ("PolicyVersionList",
         VArr [obj [("VersionId", VStr "v1"); ("Document", document)]])].

Definition allow (Action : value) (Resource : value) : value :=
  obj [("Effect", VStr "Allow"); ("Action", Action); ("Resource", Resource)].

(** The concrete scenarios of the design document (section 8). *)

Definition scenario1 : value :=
  policy_with_document "scenario1" (obj [("Statement", VArr [
    allow (VArr [VStr "iam:PassRole"; VStr "ec2:RunInstances"]) (VStr "*")])]).

Definition scenario2 : value :=
  policy_with_document "scenario2" (obj [("Statement", VArr [
    allow (VStr "s3:GetObject") (VStr "arn:aws:s3:::my-bucket/*")])]).

Definition scenario3 : value :=
  policy_with_document "scenario3" (obj [("Statement", VArr [
    obj [("Effect", VStr "Allow"); ("Action", VStr "iam:AddUserToGroup")]])]).

Definition deny_everything : value :=
  obj [("Effect", VStr "Deny"); ("Action", VStr "*"); ("Resource", VStr "*")].

Definition scenario4 : value :=
  policy_with_document "scenario4" (obj [("Statement", VArr [
    deny_everything;
    obj [("Effect", VStr "Allow"); ("Action", VStr "iam:CreateAccessKey")]])]).

Definition bare_statement : gmap string value :=
  list_to_map [("Effect", VStr "Allow"); ("Action", VStr "iam:*")].

Definition scenario5 : value :=
  policy_with_document "scenario5" (obj [("Statement", VObj bare_statement)]).

Definition scenario6 : list (string * value) :=
  [("scenario4", scenario4); ("scenario3", scenario3);
   ("scenario2", scenario2)].

(** Inputs outside the [IAMPolicy] type. *)

Definition no_version_list : value :=
  obj [("PolicyName", VStr "p"); ("PolicyId", VStr "p");
       ("DefaultVersionId", VStr "v1")].

Definition version_list_not_array : value :=
  obj [("PolicyName", VStr "p"); ("PolicyId", VStr "p");
       ("DefaultVersionId", VStr "v1");
       ("PolicyVersionList", obj [("v1", obj [("Document", obj [])])])].

Definition null_statement : value :=
  policy_with_document "p" (obj [("Statement", VArr [VNull])]).

Definition odd_statements : list value :=
  [VNum 3; VStr "Allow"; VBool true; VArr []; obj [];
   obj [("Effect", VNum 1); ("Action", VStr "*")];
   obj [("Effect", VStr "Allow")]].

Definition odd_policy : value :=
  policy_with_document "odd" (obj [("Statement", VArr odd_statements)]).

(** A [null] entry of the version list before the default version, and
    one after it. *)

Definition odd_version : value :=
  obj [("VersionId", VStr "v1");
       ("Document", obj [("Statement", VArr odd_statements)])].

Definition null_version_first : value :=
  obj [("PolicyName", VStr "p"); ("PolicyId", VStr "p");
       ("DefaultVersionId", VStr "v1");
       ("PolicyVersionList", VArr [VNull; odd_version])].

Definition null_version_last : value :=
  obj [("PolicyName", VStr "p"); ("PolicyId", VStr "p");
       ("DefaultVersionId", VStr "v1");
       ("PolicyVersionList", VArr [odd_version; VNull])].

(** A default document without [Statement]. *)
Definition no_statement : value :=
  policy_with_document "empty" (obj []).

Definition one_version : list value :=
  [obj [("VersionId", VStr "v1");
        ("Document", obj [("Statement", VArr [allow (VStr "*") (VStr "*")])])]].

Definition no_default_version : value :=
  obj [("PolicyName", VStr "p"); ("PolicyId", VStr "p");
       ("DefaultVersionId", VStr "v2");
       ("PolicyVersionList", VArr one_version)].

Definition wildcard_everything : value :=
  obj [("PolicyName", VStr "p"); ("PolicyId", VStr "p");
       ("DefaultVersionId", VStr "v1");
       ("PolicyVersionList", VArr one_version)].

(** Inputs for the growth of a policy: [scenario4] without its second
    statement, and the statement of [scenario1] without its second action. *)

Definition deny_only : value :=
  policy_with_document "deny-only" (obj [("Statement", VArr [deny_everything])]).

Definition passrole_only : value :=
  allow (VArr [VStr "iam:PassRole"]) (VStr "*").

Definition passrole_and_run : value :=
  allow (VArr [VStr "iam:PassRole"; VStr "ec2:RunInstances"]) (VStr "*").

From stdpp Require Import pretty.

(** ** Further views of the analyzer *)

(** The flags the callback can push for the statement at position
    [statementIndex], one per check, in the order of the checks. *)
Definition every_flag (statementIndex : nat) : list SecurityFlag := [
  flag "wildcard-resource" WILDCARD_RESOURCE statementIndex;
  flag "wildcard-permission" WILDCARD_PERMISSION statementIndex;
  flag "wildcard-iam" WILDCARD_IAM statementIndex;
  flag "create-policy-version" CREATE_POLICY_VERSION statementIndex;
  flag "policy-version-manipulation" POLICY_VERSION_MANIPULATION statementIndex;
  flag "passrole-any" PASSROLE_ANY statementIndex;
  flag "passrole-ec2" PASSROLE_EC2 statementIndex;
  flag "access-key-creation" ACCESS_KEY_CREATION statementIndex;
  flag "login-profile-manipulation" LOGIN_PROFILE_MANIPULATION statementIndex;
  flag "policy-attachment" POLICY_ATTACHMENT statementIndex;
  flag "inline-policy-manipulation" INLINE_POLICY_MANIPULATION statementIndex;
  flag "group-membership" GROUP_MEMBERSHIP statementIndex;
  flag "assume-role-policy-update" ASSUME_ROLE_POLICY_UPDATE statementIndex;
  flag "lambda-privilege-escalation" LAMBDA_PRIVILEGE_ESCALATION statementIndex;
  flag "lambda-event-source-manipulation" LAMBDA_EVENT_SOURCE_MANIPULATION
    statementIndex;
  flag "lambda-code-update" LAMBDA_CODE_UPDATE statementIndex;
  flag "glue-privilege-escalation" GLUE_PRIVILEGE_ESCALATION statementIndex;
  flag "glue-endpoint-manipulation" GLUE_ENDPOINT_MANIPULATION statementIndex;
  flag "cloudformation-privilege-escalation" CLOUDFORMATION_PRIVILEGE_ESCALATION
    statementIndex;
  flag "datapipeline-privilege-escalation" DATAPIPELINE_PRIVILEGE_ESCALATION
    statementIndex
].

(** The findings of a result that name statement [i]. *)
Definition flags_for (i : nat) (fl : list SecurityFlag) : list SecurityFlag :=
  filter (λ f, affectedStatements f = [i]) fl.

(** The ids whose table entries have severity [MEDIUM]. *)
Definition medium_ids : list string :=
  ["group-membership"; "lambda-code-update"; "glue-endpoint-manipulation"].

(** The ids of the checks that ask for [iam:PassRole] together with other
    actions. *)
Definition passrole_combination_ids : list string :=
  ["passrole-ec2"; "lambda-privilege-escalation";
   "lambda-event-source-manipulation"; "glue-privilege-escalation";
   "cloudformation-privilege-escalation"; "datapipeline-privilege-escalation"].

(** The resource check of the callback. *)
Definition has_wildcard_resource (resourceRaw : value) : bool :=
  JS.some (λ r, JS.typeof_string r && JS.strict_equals r (VStr "*"))
    (resources_of resourceRaw).

(** ** The policy details page

    The two places of [PolicyDetailsPage] that look the default document up
    again, beside the call of [analyzePolicy]: the document it displays, and
    the statements its three request handlers send along with the flags. *)

Module PolicyDetailsPage.

(** [receiver?.find(predicate)] *)
Definition optional_find (receiver : value) (predicate : value → result bool)
  : result value :=
  match receiver with
  | VUndefined | VNull => Ok VUndefined
  | _ => JS.call_find receiver predicate
  end.

(** [o?.k] *)
Definition optional_get (o : value) (k : string) : result value :=
  match o with
  | VUndefined | VNull => Ok VUndefined
  | _ => JS.get o k
  end.

(** [policy.PolicyVersionList?.find(v => v.VersionId ===
    policy.DefaultVersionId)] *)
Definition defaultVersion (policy : value) : result value :=
  PolicyVersionList ← JS.get policy "PolicyVersionList";
  optional_find PolicyVersionList (λ v,
    VersionId ← JS.get v "VersionId";
    DefaultVersionId ← JS.get policy "DefaultVersionId";
    Ok (JS.strict_equals VersionId DefaultVersionId)).

(** [const document = policyData.PolicyVersionList?.find(...)?.Document
    || null] *)
Definition document (policyData : value) : result value :=
  found ← defaultVersion policyData;
  Document ← optional_get found "Document";
  Ok (if JS.ToBoolean Document then Document else VNull).

(** [const statements = Array.isArray(defaultVersion?.Document?.Statement)
    ? defaultVersion!.Document!.Statement : []] *)
Definition statements (policy : value) : result (list value) :=
  found ← defaultVersion policy;
  Document ← optional_get found "Document";
  Statement ← optional_get Document "Statement";
  Ok (match Statement with VArr items => items | _ => [] end).

End PolicyDetailsPage.


(** ** The dashboard

    [DashboardPage] calls [analyzeAllPolicies] and [getSecuritySummary] on
    the uploaded policies, highlights the rows of high-risk policies, and
    sorts roles and policies into categories by their ARN. *)

Module DashboardPage.

(** [securityAnalysis.some(a => a.policyId === policyId && a.isHighRisk)],
    computed for the row of the entry [[policyId, policy]]. *)
Definition rowIsHighRisk (securityAnalysis : list PolicyAnalysisResult)
    (key : string) : bool :=
  JS.some (λ a, JS.strict_equals (policyId a) (VStr key) && isHighRisk a)
    securityAnalysis.

(** [s.includes(search)] on strings: [search] occurs in [s]. *)
Fixpoint String_includes (s search : string) : bool :=
  String.prefix search s
  || match s with
     | EmptyString => false
     | String _ rest => String_includes rest search
     end.

(** [receiver.includes(search)] with a string argument.  Strings and
    arrays have an [includes] method; on anything else the call throws. *)
Definition call_includes (receiver : value) (search : string) : result bool :=
  match receiver with
  | VStr s => Ok (String_includes s search)
  | VArr items =>
      Ok (existsb (λ item, JS.strict_equals item (VStr search)) items)
  | _ => Throw TypeError
  end.

(** [Object.entries(record).forEach(([key, value]) => ...)] with a callback
    that pushes to captured arrays [St]. *)
Fixpoint forEach_entry {St : Type}
    (callback : string * value → St → result St)
    (entries : list (string * value)) (s : St) : result St :=
  match entries with
  | [] => Ok s
  | entry :: rest => s' ← callback entry s; forEach_entry callback rest s'
  end.

Record RoleCategories : Type := {
  userRoles : list (string * value);
  serviceRoles : list (string * value)
}.

Definition categorizeRoles (roles : list (string * value))
  : result RoleCategories :=
  forEach_entry (λ '(roleId, role) acc,
    Arn ← JS.get role "Arn";
    service ← call_includes Arn "/aws-service-role/";
    if service : bool then
      Ok {| userRoles := userRoles acc;
            serviceRoles := serviceRoles acc ++ [(roleId, role)] |}
    else
      Ok {| userRoles := userRoles acc ++ [(roleId, role)];
            serviceRoles := serviceRoles acc |})
    roles {| userRoles := []; serviceRoles := [] |}.

Record PolicyCategories : Type := {
  userPolicies : list (string * value);
  serviceRolePolicies : list (string * value);
  managedPolicies : list (string * value)
}.

(** [a || b] and [a && b] on conditions that may throw: the right operand
    is evaluated only when the left one does not decide. *)
Definition or_else (a : result bool) (b : result bool) : result bool :=
  x ← a; if x : bool then Ok true else b.
Definition and_then (a : result bool) (b : result bool) : result bool :=
  x ← a; if x : bool then b else Ok false.
Definition negate (a : result bool) : result bool := x ← a; Ok (negb x).

Definition categorizePolicies (policies : list (string * value))
  : result PolicyCategories :=
  forEach_entry (λ '(policyId, policy) acc,
    Arn ← JS.get policy "Arn";
    serviceRole ← or_else (call_includes Arn "::aws:policy/aws-service-role/")
                          (call_includes Arn ":policy/service-role/");
    if serviceRole : bool then
      Ok {| userPolicies := userPolicies acc;
            serviceRolePolicies :=
              serviceRolePolicies acc ++ [(policyId, policy)];
            managedPolicies := managedPolicies acc |}
    else
      managed ← and_then
                  (and_then (call_includes Arn "::aws:policy/")
                            (negate (call_includes Arn "/aws-service-role/")))
                  (negate (call_includes Arn "/service-role/"));
      if managed : bool then
        Ok {| userPolicies := userPolicies acc;
              serviceRolePolicies := serviceRolePolicies acc;
              managedPolicies := managedPolicies acc ++ [(policyId, policy)] |}
      else
        Ok {| userPolicies := userPolicies acc ++ [(policyId, policy)];
              serviceRolePolicies := serviceRolePolicies acc;
              managedPolicies := managedPolicies acc |})
    policies
    {| userPolicies := []; serviceRolePolicies := []; managedPolicies := [] |}.

(** The [Arn] of an entry, when it is a string. *)
Definition arn_of (entry : string * value) : option string :=
  match JS.own_property entry.2 "Arn" with
  | Some (VStr arn) => Some arn
  | _ => None
  end.

(** The two conditions of [categorizePolicies] and the one of
    [categorizeRoles], on an ARN that is a string. *)
Definition service_role_policy_arn (arn : string) : bool :=
  String_includes arn "::aws:policy/aws-service-role/"
  || String_includes arn ":policy/service-role/".

Definition managed_policy_arn (arn : string) : bool :=
  String_includes arn "::aws:policy/"
  && negb (String_includes arn "/aws-service-role/")
  && negb (String_includes arn "/service-role/").

Definition service_role_arn (arn : string) : bool :=
  String_includes arn "/aws-service-role/".

Definition has_arn (test : string → bool) (entry : string * value) : bool :=
  match arn_of entry with Some arn => test arn | None => false end.

(** The [Arn] of [entity] has no [includes] to call: the entity is [null],
    or its [Arn] is absent, [null], a number, a boolean or an object. *)
Definition arn_not_searchable (entity : value) : bool :=
  match JS.get entity "Arn" with
  | Ok (VStr _) | Ok (VArr _) => false
  | _ => true
  end.

End DashboardPage.

Definition with_arn (name arn : string) : string * value :=
  (name, obj [("PolicyId", VStr name); ("Arn", VStr arn)]).

Definition some_policies : list (string * value) :=
  [with_arn "a" "arn:aws:iam::123456789012:policy/mine";
   with_arn "b" "arn:aws:iam::aws:policy/aws-service-role/AWSSupportServiceRolePolicy";
   with_arn "c" "arn:aws:iam::aws:policy/ReadOnlyAccess";
   with_arn "d" "arn:aws:iam::aws:policy/service-role/AWSLambdaBasicExecutionRole";
   with_arn "e" "arn:aws:iam::aws:policy/job-function/service-role/X"].

Definition some_roles : list (string * value) :=
  [with_arn "r1" "arn:aws:iam::1:role/aws-service-role/x.amazonaws.com/R";
   with_arn "r2" "arn:aws:iam::1:role/admin"].

(** ** The security report

    [SecurityReport] takes analysis results as a prop, counts them, and
    renders the counts and the high-risk policies as text. *)

Module SecurityReport.

Record Counts : Type := {
  highRiskPolicies : list PolicyAnalysisResult;
  totalFlags : nat;
  highSeverityFlags : nat;
  mediumSeverityFlags : nat;
  lowSeverityFlags : nat
}.

(** The five constants at the head of the component. *)
Definition counts (analysisResults : list PolicyAnalysisResult) : Counts := {|
  highRiskPolicies := List.filter (λ p, isHighRisk p) analysisResults;
  totalFlags :=
    fold_left (λ sum p, sum + length (flags p)) analysisResults 0;
  highSeverityFlags :=
    fold_left (λ sum p,
      sum + length (List.filter (λ f, bool_decide (severity f = HIGH)) (flags p)))
      analysisResults 0;
  mediumSeverityFlags :=
    fold_left (λ sum p,
      sum + length (List.filter (λ f, bool_decide (severity f = MEDIUM)) (flags p)))
      analysisResults 0;
  lowSeverityFlags :=
    fold_left (λ sum p,
      sum + length (List.filter (λ f, bool_decide (severity f = LOW)) (flags p)))
      analysisResults 0
|}.

(** A severity inside a template literal. *)
Definition Severity_text (s : Severity) : string :=
  match s with HIGH => "HIGH" | MEDIUM => "MEDIUM" | LOW => "LOW" end.

Definition newline : string := String "010"%char EmptyString.

Section Report.

(** [generated] is what [new Date().toLocaleString()] returns when the
    report is made.  [ToString] is the conversion a template literal applies
    to [policy.policyName]; the component's props type makes that a string,
    and nothing below depends on how other values are converted. *)
Variable generated : string.
Variable ToString : value → string.

(** The three lines pushed for one flag. *)
Definition flag_lines (flag : SecurityFlag) : list string :=
  ["  - " +:+ Severity_text (severity flag) +:+ ": " +:+ title flag;
   "    Description: " +:+ description flag;
   "    Recommendation: " +:+ recommendation flag].

(** The lines pushed for one high-risk policy. *)
Definition policy_lines (policy : PolicyAnalysisResult) : list string :=
  ["Policy: " +:+ ToString (policyName policy);
   "Flags: " +:+ pretty (length (flags policy))]
  ++ flat_map flag_lines (flags policy)
  ++ [""].

(** The [report] array of [generateReportText], just before [join]. *)
Definition report_lines (totalPolicies : nat)
    (analysisResults : list PolicyAnalysisResult) : list string :=
  let c := counts analysisResults in
  let report := [
    "IAM Security Analysis Report";
    "============================";
    "";
    "Generated: " +:+ generated;
    "Total Policies Analyzed: " +:+ pretty totalPolicies;
    "";
    "SUMMARY";
    "-------";
    "High Risk Policies: " +:+ pretty (length (highRiskPolicies c));
    "Total Security Flags: " +:+ pretty (totalFlags c);
    "  - High Severity: " +:+ pretty (highSeverityFlags c);
    "  - Medium Severity: " +:+ pretty (mediumSeverityFlags c);
    "  - Low Severity: " +:+ pretty (lowSeverityFlags c);
    "";
    "HIGH RISK POLICIES";
    "------------------"
  ] in
  let report :=
    if 0 <? length (highRiskPolicies c)
    then report ++ flat_map policy_lines (highRiskPolicies c)
    else report ++ ["No high-risk policies found."; ""] in
  report ++ [
    "RECOMMENDATIONS";
    "---------------";
    "1. Review all high-risk policies immediately";
    "2. Implement principle of least privilege";
    "3. Remove wildcard permissions where possible";
    "4. Restrict PassRole permissions to specific roles";
    "5. Regularly audit IAM policies for security issues"
  ].

Definition generateReportText (totalPolicies : nat)
    (analysisResults : list PolicyAnalysisResult) : string :=
  String.concat newline (report_lines totalPolicies analysisResults).

End Report.

End SecurityReport.

(** ** The group and role pages

    [GroupDetailsPage] and [RoleDetailsPage] resolve the managed policies
    attached to the entity they show against the uploaded policies. *)

Module EntityPage.

(** [receiver.map(callback)]: only an array has a callable [map] among the
    values [JSON.parse] builds. *)
Definition call_map (receiver : value) (callback : value → result value)
  : result (list value) :=
  match receiver with
  | VArr items => JS.Array_map callback items
  | _ => Throw TypeError
  end.

(** [entity.AttachedManagedPolicies.map(attachedPolicy => { const policyArn
    = attachedPolicy.PolicyArn; return Object.values(policies).find(policy
    => policy.Arn === policyArn); }).filter(policy => policy !==
    undefined)] *)
Definition attachedPolicies (entity : value) (policies : list (string * value))
  : result (list value) :=
  AttachedManagedPolicies ← JS.get entity "AttachedManagedPolicies";
  found ← call_map AttachedManagedPolicies (λ attachedPolicy,
    policyArn ← JS.get attachedPolicy "PolicyArn";
    JS.Array_find (λ policy,
      Arn ← JS.get policy "Arn";
      Ok (JS.strict_equals Arn policyArn)) (Object_values policies));
  Ok (List.filter (λ policy, negb (JS.strict_equals policy VUndefined)) found).

(** The first policy whose [Arn] is the string [arn]. *)
Definition policy_with_arn (policies : list (string * value)) (arn : string)
  : option value :=
  List.find (λ policy,
    match JS.own_property policy "Arn" with
    | Some (VStr a) => String.eqb a arn
    | _ => false
    end) (Object_values policies).

(** The [PolicyArn] of an attachment, when it is a string. *)
Definition attached_arn (attachedPolicy : value) : option string :=
  match JS.own_property attachedPolicy "PolicyArn" with
  | Some (VStr arn) => Some arn
  | _ => None
  end.

End EntityPage.

Definition some_group : value :=
  obj [("GroupName", VStr "admins");
       ("AttachedManagedPolicies",
         VArr [obj [("PolicyArn", VStr "arn:aws:iam::aws:policy/ReadOnlyAccess")];
               obj [("PolicyArn", VStr "arn:aws:iam::aws:policy/NotUploaded")];
               obj [("PolicyArn", VStr "arn:aws:iam::123456789012:policy/mine")]])].

(** The conversion of a name that is a string; other names do not occur in
    the examples. *)
Definition name_text (v : value) : string :=
  match v with VStr s => s | _ => EmptyString end.

(** * Properties *)

(** ** The exception monad *)

Lemma bind_Ok_inv {A B : Type} (m : result A) (k : A → result B) (b : B) :
  m ≫= k = Ok b → ∃ a, m = Ok a ∧ k a = Ok b.
Proof. destruct m as [a|e]; [eauto | discriminate]. Qed.

Lemma bind_Ok {A B : Type} (m : result A) (k : A → result B) (a : A) :
  m = Ok a → m ≫= k = k a.
Proof. by intros ->. Qed.

Ltac bind_inv H :=
  let a := fresh "a" in
  let Ha := fresh "H" a in
  apply bind_Ok_inv in H as (a & Ha & H).

(** ** Reading properties *)

Lemma get_not_nullish (v : value) (k : string) :
  nullish v = false →
  JS.get v k = Ok (default VUndefined (JS.own_property v k)).
Proof. by destruct v. Qed.

Lemma get_Ok_not_nullish (v x : value) (k : string) :
  JS.get v k = Ok x → nullish v = false.
Proof. by destruct v. Qed.

Lemma get_Ok_field (v x : value) (k : string) :
  JS.get v k = Ok x → x = default VUndefined (JS.own_property v k).
Proof. destruct v; simpl; congruence. Qed.

Lemma strict_equals_string (v : value) (s : string) :
  JS.strict_equals v (VStr s) = true ↔ v = VStr s.
Proof.
  destruct v; simpl; try (split; [discriminate | congruence]).
  rewrite String.eqb_eq. split; congruence.
Qed.

(** ** The checks only ever append *)

Lemma push_if_app (c : bool) (f : SecurityFlag) (old new : list SecurityFlag) :
  push_if c f (old ++ new) = old ++ push_if c f new.
Proof. destruct c; simpl; [by rewrite app_assoc | done]. Qed.

Lemma push_if_nil (c : bool) (f : SecurityFlag) (fl : list SecurityFlag) :
  push_if c f fl = fl ++ (if c then [f] else []).
Proof. destruct c; simpl; [done | by rewrite app_nil_r]. Qed.

Lemma check_statement_app actions resources i (old new : list SecurityFlag) :
  check_statement actions resources i (old ++ new)
  = old ++ check_statement actions resources i new.
Proof. unfold check_statement. cbv zeta. by rewrite !push_if_app. Qed.

Lemma statement_callback_flags (st : value) (i : nat) (fl : list SecurityFlag) :
  statement_callback st i fl
  = statement_flags st i ≫= λ new, Ok (fl ++ new).
Proof.
  unfold statement_flags, statement_callback.
  destruct (JS.get st "Effect") as [e|]; [|done].
  cbn [mbind result_bind].
  destruct (negb _); cbn [mbind result_bind]; [by rewrite app_nil_r|].
  destruct (JS.get st "Action") as [a|]; [|done].
  cbn [mbind result_bind].
  destruct (JS.get st "Resource") as [r|]; [|done].
  cbn [mbind result_bind].
  by rewrite <- check_statement_app, app_nil_r.
Qed.

Lemma forEach_flags (sts : list value) (i : nat) (fl : list SecurityFlag) :
  JS.forEach statement_callback sts i fl
  = per_statement_flags sts i ≫= λ per, Ok (fl ++ concat per).
Proof.
  revert i fl. induction sts as [|st sts IH]; intros i fl; simpl.
  - by rewrite app_nil_r.
  - rewrite statement_callback_flags.
    destruct (statement_flags st i) as [new|]; [|done].
    cbn [mbind result_bind]. rewrite IH.
    destruct (per_statement_flags sts (S i)) as [per|]; [|done].
    cbn [mbind result_bind concat]. by rewrite app_assoc.
Qed.

(** ** The shape of a successful analysis *)

Lemma normalized_statements_not_nullish (p : value) (sts : list value) :
  normalized_statements p = Ok sts → nullish p = false.
Proof.
  unfold normalized_statements, defaultDocument. intros H.
  destruct (JS.get p "PolicyVersionList") eqn:E; [|discriminate].
  by eapply get_Ok_not_nullish.
Qed.

Lemma analyzePolicy_Ok_inv (p : value) (r : PolicyAnalysisResult) :
  analyzePolicy p = Ok r →
  ∃ sts per,
    normalized_statements p = Ok sts
    ∧ per_statement_flags sts 0 = Ok per
    ∧ flags r = concat per
    ∧ isHighRisk r
      = JS.some (λ f, bool_decide (severity f = HIGH)) (flags r).
Proof.
  unfold analyzePolicy, normalized_statements. intros H.
  destruct (defaultDocument p) as [[d|]|]; cbn [mbind result_bind] in *;
    [| |discriminate].
  - destruct (statements_of d) as [sts|]; cbn [mbind result_bind] in *;
      [|discriminate].
    rewrite forEach_flags in H.
    destruct (per_statement_flags sts 0) as [per|] eqn:Hper;
      cbn [mbind result_bind] in *; [|discriminate].
    do 2 bind_inv H. injection H as <-. by exists sts, per.
  - do 2 bind_inv H. injection H as <-. by exists [], [].
Qed.

Lemma analyzePolicy_Ok_intro (p : value) (sts : list value)
    (per : list (list SecurityFlag)) :
  normalized_statements p = Ok sts →
  per_statement_flags sts 0 = Ok per →
  ∃ r, analyzePolicy p = Ok r
       ∧ flags r = concat per
       ∧ isHighRisk r
         = JS.some (λ f, bool_decide (severity f = HIGH)) (concat per).
Proof.
  intros Hsts Hper.
  pose proof (normalized_statements_not_nullish _ _ Hsts) as Hp.
  unfold analyzePolicy, normalized_statements in *.
  rewrite !(get_not_nullish p) by done.
  destruct (defaultDocument p) as [[d|]|]; cbn [mbind result_bind] in *;
    [| |discriminate].
  - rewrite Hsts. cbn [mbind result_bind]. rewrite forEach_flags, Hper.
    cbn [mbind result_bind]. eexists. split; [done|]. by simpl.
  - injection Hsts as <-. injection Hper as <-.
    eexists. split; [done|]. by simpl.
Qed.

(** ** When the callback returns *)

Lemma statement_flags_total (st : value) (i : nat) :
  nullish st = false → ∃ new, statement_flags st i = Ok new.
Proof.
  intros H. unfold statement_flags, statement_callback.
  rewrite !(get_not_nullish st) by done. cbn [mbind result_bind].
  destruct (negb _); eauto.
Qed.

Lemma statement_flags_nullish (st : value) (i : nat) :
  nullish st = true → statement_flags st i = Throw TypeError.
Proof.
  by destruct st.
Qed.

Lemma statement_flags_not_object (st : value) (i : nat) :
  nullish st = false → is_object st = false → statement_flags st i = Ok [].
Proof. by destruct st. Qed.

Lemma per_statement_flags_total (sts : list value) (i : nat) :
  Forall (λ st, nullish st = false) sts →
  ∃ per, per_statement_flags sts i = Ok per.
Proof.
  intros H. revert i. induction H as [|st sts Hst _ IH]; intros i; simpl.
  - eauto.
  - destruct (statement_flags_total st i Hst) as [new ->].
    destruct (IH (S i)) as [per ->]. cbn [mbind result_bind]. eauto.
Qed.

(** ** The checks of the code against the triggers of the table *)

Lemma includes_decide (actions : list string) (x : string) :
  JS.includes actions x = bool_decide (x ∈ actions).
Proof.
  unfold JS.includes. induction actions as [|a actions IH]; [done|].
  cbn [existsb]. rewrite IH.
  destruct (String.eqb_spec x a) as [->|Hne]; cbn [orb].
  - symmetry. apply bool_decide_eq_true_2. left.
  - apply bool_decide_ext. rewrite elem_of_cons. intuition congruence.
Qed.

Lemma some_test_decide (lit : string) (actions : list string) :
  JS.some (λ a, JS.test (JS.AnchoredLiteral lit) a) actions
  = bool_decide (lit ∈ actions).
Proof. by rewrite <- includes_decide. Qed.

Lemma some_includes_decide (pats actions : list string) :
  JS.some (λ action, JS.includes pats action) actions
  = bool_decide (Exists (λ lit, lit ∈ actions) pats).
Proof.
  unfold JS.some. destruct (existsb _ actions) eqn:E; symmetry.
  - apply bool_decide_eq_true_2. apply existsb_exists in E as (a & Ha & Hin).
    rewrite includes_decide in Hin. apply bool_decide_eq_true_1 in Hin.
    apply Exists_exists. exists a. split; [done|]. by apply list_elem_of_In.
  - apply bool_decide_eq_false_2. intros (lit & Hlit & Hin)%Exists_exists.
    apply not_true_iff_false in E. apply E, existsb_exists.
    exists lit. split; [by apply list_elem_of_In|].
    rewrite includes_decide. by apply bool_decide_eq_true_2.
Qed.

Lemma forallb_includes_decide (lits actions : list string) :
  forallb (JS.includes actions) lits
  = bool_decide (Forall (λ lit, lit ∈ actions) lits).
Proof.
  induction lits as [|lit lits IH]; [done|].
  cbn [forallb]. rewrite IH, includes_decide.
  destruct (bool_decide (lit ∈ actions)) eqn:E1; cbn [andb].
  - apply bool_decide_eq_true_1 in E1. apply bool_decide_ext.
    rewrite Forall_cons. tauto.
  - apply bool_decide_eq_false_1 in E1. symmetry.
    apply bool_decide_eq_false_2. rewrite Forall_cons. tauto.
Qed.

Lemma actions_normalize (o : option value) :
  JS.filter_strings (actionsRaw_of (default VUndefined o)) = Spec.normalize o.
Proof.
  destruct o as [[| | | | |items|]|]; simpl; try done.
  induction items as [|[] items IH]; simpl; by rewrite ?IH.
Qed.

Lemma resources_normalize (o : option value) :
  JS.some (λ r, JS.typeof_string r && JS.strict_equals r (VStr "*"))
    (resources_of (default VUndefined o))
  = bool_decide ("*" ∈ Spec.normalize o).
Proof.
  rewrite <- includes_decide.
  destruct o as [[| | | |s|items|]|]; simpl; try done.
  - by rewrite String.eqb_sym.
  - induction items as [|[] items IH]; simpl; rewrite ?IH; try done.
    by rewrite String.eqb_sym.
Qed.

Lemma fired_finding (c c' : bool) (f : SecurityFlag) (g : Spec.finding)
    (rest : list SecurityFlag) (rest' : list Spec.finding) :
  c = c' → finding_of f = g → map finding_of rest = rest' →
  map finding_of ((if c then [f] else []) ++ rest)
  = (if c' then [g] else []) ++ rest'.
Proof. intros -> <- <-. rewrite map_app. by destruct c'. Qed.

(** On normalized input the twenty checks are the table's rules, taken
    with the resource rule first. *)
Lemma check_statement_spec (actions : list string) (resources : list value)
    (rs : list string) (i : nat) :
  JS.some (λ r, JS.typeof_string r && JS.strict_equals r (VStr "*")) resources
  = bool_decide ("*" ∈ rs) →
  map finding_of (check_statement actions resources i [])
  = flat_map (λ r,
      if Spec.fires r actions rs
      then [{| Spec.rule_key := Spec.key r;
               Spec.finding_severity := Spec.rule_severity r;
               Spec.statement_indices := [i] |}]
      else []) Spec.resource_rule_first.
Proof.
  intros Hres. unfold check_statement. cbv zeta.
  rewrite !push_if_nil, app_nil_l, <- !app_assoc.
  let l := eval vm_compute in Spec.resource_rule_first in
    change Spec.resource_rule_first with l.
  cbn [flat_map]. unfold Spec.fires. cbn [Spec.trigger Spec.key Spec.rule_severity].
  rewrite <- !forallb_includes_decide. cbn [forallb].
  rewrite ?andb_true_r, ?andb_assoc.
  repeat (apply fired_finding;
          [first [exact Hres | apply some_test_decide | apply includes_decide
                 | apply some_includes_decide | reflexivity]
          | reflexivity | ]).
  rewrite app_nil_r. by destruct (_ && _).
Qed.

Lemma effect_Allow (st : value) :
  Spec.effect st = Some "Allow" ↔ JS.get st "Effect" = Ok (VStr "Allow").
Proof.
  unfold Spec.effect. destruct st as [| | | | | |props]; simpl; try done.
  destruct (props !! "Effect") as [[]|]; simpl; split; congruence.
Qed.

Lemma statement_flags_spec (st : value) (i : nat) (new : list SecurityFlag) :
  statement_flags st i = Ok new →
  map finding_of new = Spec.statement_findings Spec.resource_rule_first i st.
Proof.
  unfold statement_flags, statement_callback, Spec.statement_findings.
  intros H. bind_inv H. rename a into e.
  pose proof (get_Ok_not_nullish _ _ _ Ha) as Hst.
  destruct (JS.strict_equals e (VStr "Allow")) eqn:He; cbn [negb] in H.
  - apply strict_equals_string in He as ->.
    rewrite bool_decide_eq_true_2 by by apply effect_Allow.
    rewrite !(get_not_nullish st) in H by done.
    cbn [mbind result_bind] in H. injection H as <-. cbv zeta.
    rewrite actions_normalize.
    apply check_statement_spec, resources_normalize.
  - injection H as <-.
    rewrite bool_decide_eq_false_2; [done|].
    rewrite effect_Allow, Ha. intros [= ->]. by vm_compute in He.
Qed.

Lemma per_statement_flags_spec (sts : list value) (i : nat)
    (per : list (list SecurityFlag)) :
  per_statement_flags sts i = Ok per →
  map finding_of (concat per)
  = concat (imap (λ k, Spec.statement_findings Spec.resource_rule_first (i + k))
              sts).
Proof.
  revert i per. induction sts as [|st sts IH]; intros i per H; simpl in H.
  - by injection H as <-.
  - do 2 bind_inv H. injection H as <-.
    cbn [concat imap]. rewrite map_app, Nat.add_0_r.
    f_equal; [by apply statement_flags_spec|].
    rewrite (IH (S i) _ Ha0). f_equal. apply imap_ext.
    intros k x _. simpl. f_equal. lia.
Qed.

(** ** Growth of the statement sequence and of the action list *)

Lemma per_statement_flags_app (sts extra : list value) (i : nat) :
  per_statement_flags (sts ++ extra) i
  = per ← per_statement_flags sts i;
    per' ← per_statement_flags extra (i + length sts);
    Ok (per ++ per').
Proof.
  revert i. induction sts as [|st sts IH]; intros i; simpl.
  - rewrite Nat.add_0_r. by destruct (per_statement_flags extra i).
  - destruct (statement_flags st i) as [new|]; [|done].
    cbn [mbind result_bind]. rewrite IH.
    replace (S i + length sts) with (i + S (length sts)) by lia.
    destruct (per_statement_flags sts (S i)) as [per|]; [|done].
    cbn [mbind result_bind].
    by destruct (per_statement_flags extra _).
Qed.

Lemma fired_sublist (c c' : bool) (f : SecurityFlag) :
  (c = true → c' = true) →
  (if c then [f] else []) `sublist_of` (if c' then [f] else []).
Proof.
  destruct c; [intros ->; done|]. intros _. apply sublist_nil_l.
Qed.

Lemma Exists_elem_of_mono (actions actions' pats : list string) :
  actions ⊆ actions' →
  Exists (λ lit, lit ∈ actions) pats → Exists (λ lit, lit ∈ actions') pats.
Proof.
  intros Hsub H. eapply Exists_impl; [exact H|]. intros x. apply Hsub.
Qed.

Ltac rule_monotone Hsub :=
  let H := fresh in
  intros H;
  rewrite ?andb_true_iff, ?includes_decide, ?some_test_decide,
    ?some_includes_decide, ?bool_decide_eq_true in *;
  intuition eauto using Exists_elem_of_mono.

(** More actions, same resources: every check that passed still passes,
    and the flags come out in the same order. *)
Lemma check_statement_mono (actions actions' : list string)
    (resources : list value) (i : nat) :
  actions ⊆ actions' →
  check_statement actions resources i []
    `sublist_of` check_statement actions' resources i [].
Proof.
  intros Hsub. unfold check_statement, Pattern.patterns. cbv zeta.
  cbn [Pattern.pattern WILDCARD_PERMISSION WILDCARD_IAM CREATE_POLICY_VERSION
       POLICY_VERSION_MANIPULATION PASSROLE_ANY LOGIN_PROFILE_MANIPULATION
       POLICY_ATTACHMENT INLINE_POLICY_MANIPULATION].
  rewrite !push_if_nil, !app_nil_l.
  repeat apply sublist_app; apply fired_sublist; rule_monotone Hsub.
Qed.

Lemma filter_strings_app (l1 l2 : list value) :
  JS.filter_strings (l1 ++ l2) = JS.filter_strings l1 ++ JS.filter_strings l2.
Proof.
  induction l1 as [|[] l1 IH]; simpl; by rewrite ?IH.
Qed.

Lemma filter_strings_insert (pre post : list value) (a : string) :
  JS.filter_strings (pre ++ post) ⊆ JS.filter_strings (pre ++ VStr a :: post).
Proof.
  rewrite !filter_strings_app. simpl. intros x.
  rewrite !elem_of_app, elem_of_cons. tauto.
Qed.

(** ** Finding the default document *)

Lemma find_predicate (p v : value) :
  nullish p = false → nullish v = false →
  (VersionId ← JS.get v "VersionId";
   DefaultVersionId ← JS.get p "DefaultVersionId";
   Ok (JS.strict_equals VersionId DefaultVersionId))
  = Ok (is_default_version p v).
Proof.
  intros Hp Hv. unfold is_default_version.
  by rewrite (get_not_nullish v), (get_not_nullish p).
Qed.

Lemma Array_find_default (p : value) (versions : list value) :
  nullish p = false →
  Forall (λ v, nullish v = false) versions →
  JS.Array_find (λ v,
    VersionId ← JS.get v "VersionId";
    DefaultVersionId ← JS.get p "DefaultVersionId";
    Ok (JS.strict_equals VersionId DefaultVersionId)) versions
  = Ok (default VUndefined (List.find (is_default_version p) versions)).
Proof.
  intros Hp H. induction H as [|v versions Hv _ IH]; [done|].
  cbn [JS.Array_find List.find]. rewrite IH. clear IH.
  rewrite find_predicate by done. cbn [mbind result_bind].
  by destruct (is_default_version p v).
Qed.

Lemma truthy_not_nullish (v : value) :
  JS.ToBoolean v = true → nullish v = false.
Proof. by destruct v. Qed.

Lemma statements_of_total (d : value) :
  nullish d = false → ∃ sts, statements_of d = Ok sts.
Proof.
  intros Hd. unfold statements_of. rewrite get_not_nullish by done.
  cbn [mbind result_bind]. eauto.
Qed.

Section VersionList.

(** A policy record as the [IAMPolicy] type has it: [PolicyVersionList] is
    an array, and none of its entries is [null]. *)
Context (p : value) (versions : list value).
Hypothesis Hlist : JS.get p "PolicyVersionList" = Ok (VArr versions).
Hypothesis Hversions : Forall (λ v, nullish v = false) versions.

Lemma defaultDocument_versions :
  defaultDocument p = Ok (default_document_of p versions).
Proof.
  pose proof (get_Ok_not_nullish _ _ _ Hlist) as Hp.
  unfold defaultDocument, default_document_of.
  rewrite (bind_Ok _ _ _ Hlist). cbn [JS.call_find].
  rewrite Array_find_default by done. cbn [mbind result_bind].
  destruct (List.find _ versions) as [v|]; [|done].
  change (default VUndefined (Some v)) with v.
  destruct (JS.ToBoolean v) eqn:Hv; cbn [negb]; [|done].
  rewrite (get_not_nullish v) by by apply truthy_not_nullish.
  cbn [mbind result_bind]. by destruct (JS.ToBoolean (default _ _)).
Qed.

Lemma normalized_statements_total :
  ∃ sts, normalized_statements p = Ok sts.
Proof.
  unfold normalized_statements. rewrite defaultDocument_versions.
  cbn [mbind result_bind]. unfold default_document_of.
  destruct (List.find _ versions) as [v|]; [|eauto].
  destruct (JS.ToBoolean v); [|eauto]. cbv zeta.
  destruct (JS.ToBoolean (default _ _)) eqn:Hd; [|eauto].
  by apply statements_of_total, truthy_not_nullish.
Qed.

Lemma normalized_statements_no_document :
  default_document_of p versions = None → normalized_statements p = Ok [].
Proof.
  intros Hdoc. unfold normalized_statements.
  by rewrite defaultDocument_versions, Hdoc.
Qed.

End VersionList.

(** ** The entries [find] reaches *)

Lemma is_default_version_not_nullish (p v : value) :
  is_default_version p v = true → nullish v = false.
Proof. by destruct v. Qed.

Lemma find_default_version (p v : value) (versions : list value) :
  List.find (is_default_version p) versions = Some v → nullish v = false.
Proof.
  intros H. apply find_some in H as [_ H].
  by eapply is_default_version_not_nullish.
Qed.

Lemma Array_find_reached (p : value) (versions : list value) :
  nullish p = false →
  Forall (λ v, nullish v = false) (reached p versions) →
  JS.Array_find (λ v,
    VersionId ← JS.get v "VersionId";
    DefaultVersionId ← JS.get p "DefaultVersionId";
    Ok (JS.strict_equals VersionId DefaultVersionId)) versions
  = Ok (default VUndefined (List.find (is_default_version p) versions)).
Proof.
  intros Hp. induction versions as [|v versions IH]; [done|].
  cbn [reached]. intros H. apply Forall_cons_1 in H as [Hv H].
  cbn [JS.Array_find List.find]. rewrite find_predicate by done.
  cbn [mbind result_bind].
  destruct (is_default_version p v); [done|]. by apply IH.
Qed.

Lemma Array_find_Ok_reached (p : value) (versions : list value) (found : value) :
  nullish p = false →
  JS.Array_find (λ v,
    VersionId ← JS.get v "VersionId";
    DefaultVersionId ← JS.get p "DefaultVersionId";
    Ok (JS.strict_equals VersionId DefaultVersionId)) versions
  = Ok found →
  Forall (λ v, nullish v = false) (reached p versions).
Proof.
  intros Hp. induction versions as [|v versions IH]; intros H; [constructor|].
  cbn [JS.Array_find] in H. bind_inv H.
  assert (nullish v = false) as Hv by (by destruct v).
  rewrite find_predicate in Ha by done. injection Ha as <-.
  cbn [reached]. constructor; [done|].
  destruct (is_default_version p v); [constructor | by apply IH].
Qed.

Lemma defaultDocument_reached (p : value) (versions : list value) :
  JS.get p "PolicyVersionList" = Ok (VArr versions) →
  Forall (λ v, nullish v = false) (reached p versions) →
  defaultDocument p = Ok (default_document_of p versions).
Proof.
  intros Hlist Hreached.
  pose proof (get_Ok_not_nullish _ _ _ Hlist) as Hp.
  unfold defaultDocument, default_document_of.
  rewrite (bind_Ok _ _ _ Hlist). cbn [JS.call_find].
  rewrite Array_find_reached by done. cbn [mbind result_bind].
  destruct (List.find _ versions) as [v|]; [|done].
  change (default VUndefined (Some v)) with v.
  destruct (JS.ToBoolean v) eqn:Hv; cbn [negb]; [|done].
  rewrite (get_not_nullish v) by by apply truthy_not_nullish.
  cbn [mbind result_bind]. by destruct (JS.ToBoolean (default _ _)).
Qed.

Lemma defaultDocument_reached_inv (p : value) (versions : list value)
    (found : option value) :
  JS.get p "PolicyVersionList" = Ok (VArr versions) →
  defaultDocument p = Ok found →
  Forall (λ v, nullish v = false) (reached p versions).
Proof.
  intros Hlist H.
  pose proof (get_Ok_not_nullish _ _ _ Hlist) as Hp.
  unfold defaultDocument in H. rewrite (bind_Ok _ _ _ Hlist) in H.
  cbn [JS.call_find] in H. bind_inv H.
  by eapply Array_find_Ok_reached.
Qed.

(** The statement list of a document, read off its [Statement]. *)
Lemma statements_of_Statement (d s : value) :
  JS.get d "Statement" = Ok s →
  statements_of d
  = Ok (match s with
        | VArr items => items
        | _ => if JS.ToBoolean s then [s] else []
        end).
Proof. intros H. unfold statements_of. by rewrite H. Qed.

Lemma statement_list_not_nullish (s : value) :
  (∀ items, s = VArr items → Forall (λ st, nullish st = false) items) →
  Forall (λ st, nullish st = false)
    (match s with
     | VArr items => items
     | _ => if JS.ToBoolean s then [s] else []
     end).
Proof.
  intros H. destruct s as [| |[]|n|[]|items|props]; simpl;
    try destruct (negb _); repeat constructor. by apply H.
Qed.

Lemma statement_list_nothing (s : value) :
  match s with
  | VArr items => Forall nothing_to_inspect items
  | _ => JS.ToBoolean s = false ∨ nothing_to_inspect s
  end →
  Forall nothing_to_inspect
    (match s with
     | VArr items => items
     | _ => if JS.ToBoolean s then [s] else []
     end).
Proof.
  destruct s as [| |b|n|str|items|props]; try done; intros H;
    (destruct (JS.ToBoolean _) eqn:Hb; [|by apply Forall_nil_2]);
    (destruct H as [H|H]; [discriminate|]);
    by apply Forall_cons_2; [|apply Forall_nil_2].
Qed.

Lemma default_document_of_Some (p : value) (versions : list value)
    (d : value) :
  default_document_of p versions = Some d ↔
  ∃ v, List.find (is_default_version p) versions = Some v
       ∧ JS.get v "Document" = Ok d ∧ JS.ToBoolean d = true.
Proof.
  unfold default_document_of. split.
  - destruct (List.find _ versions) as [v|]; [|done].
    destruct (JS.ToBoolean v) eqn:Hv; [|done]. cbv zeta.
    destruct (JS.ToBoolean (default _ _)) eqn:Hd; [|done].
    intros [= <-]. exists v. split; [done|]. split; [|done].
    by apply get_not_nullish, truthy_not_nullish.
  - intros (v & -> & Hget & Hd). apply get_Ok_field in Hget as Heq.
    assert (JS.ToBoolean v = true) as ->.
    { destruct v; try done; simpl in Heq; by subst d. }
    cbv zeta. by rewrite <- Heq, Hd.
Qed.

Lemma per_statement_flags_not_nullish (sts : list value) (i : nat)
    (per : list (list SecurityFlag)) :
  per_statement_flags sts i = Ok per → Forall (λ st, nullish st = false) sts.
Proof.
  revert i per. induction sts as [|st sts IH]; intros i per H; [constructor|].
  simpl in H. do 2 bind_inv H. constructor; [|by eapply IH].
  destruct (nullish st) eqn:E; [|done].
  by rewrite statement_flags_nullish in Ha.
Qed.

(** ** Statements that contribute nothing *)

Lemma statement_flags_not_Allow (st e : value) (i : nat) :
  JS.get st "Effect" = Ok e → e ≠ VStr "Allow" → statement_flags st i = Ok [].
Proof.
  intros He Hne. unfold statement_flags, statement_callback.
  rewrite (bind_Ok _ _ _ He).
  destruct (JS.strict_equals e (VStr "Allow")) eqn:E; [|done].
  by apply strict_equals_string in E.
Qed.

Lemma statement_flags_nothing (st : value) (i : nat) :
  nullish st = false → nothing_to_inspect st → statement_flags st i = Ok [].
Proof.
  intros Hst [Hobj|[Heff|[Hact Hres]]].
  - by apply statement_flags_not_object.
  - destruct (JS.get st "Effect") as [e|] eqn:He.
    + apply (statement_flags_not_Allow st e); [done|]. congruence.
    + by rewrite get_not_nullish in He.
  - unfold statement_flags, statement_callback.
    rewrite !(get_not_nullish st), Hact, Hres by done.
    cbn [mbind result_bind]. by destruct (negb _).
Qed.

Lemma per_statement_flags_nothing (sts : list value) (i : nat)
    (per : list (list SecurityFlag)) :
  per_statement_flags sts i = Ok per →
  Forall nothing_to_inspect sts → concat per = [].
Proof.
  intros H Hall. revert i per H.
  induction Hall as [|st sts Hst _ IH]; intros i per H; simpl in H.
  - by injection H as <-.
  - do 2 bind_inv H. injection H as <-.
    assert (nullish st = false) as Hnn.
    { destruct (nullish st) eqn:E; [|done].
      by rewrite statement_flags_nullish in Ha. }
    rewrite statement_flags_nothing in Ha by done. injection Ha as <-.
    simpl. eauto.
Qed.

Lemma some_HIGH_iff (fl : list SecurityFlag) :
  JS.some (λ f, bool_decide (severity f = HIGH)) fl = true
  ↔ ∃ f, f ∈ fl ∧ severity f = HIGH.
Proof.
  unfold JS.some. rewrite existsb_exists. split.
  - intros (f & Hin & Hf). exists f. split; [by apply list_elem_of_In|].
    by apply bool_decide_eq_true_1 in Hf.
  - intros (f & Hin & Hf). exists f. split; [by apply list_elem_of_In|].
    by apply bool_decide_eq_true_2.
Qed.

(** * The claims *)

(** C1, as the claim states it, fails: [analyzePolicy] throws a [TypeError]
    on a policy without [PolicyVersionList], on one whose
    [PolicyVersionList] is not an array, on a version list with a [null]
    entry before the default version, and on a document with a [null]
    statement entry. *)
Lemma analyzePolicy_throws_on_malformed :
  analyzePolicy no_version_list = Throw TypeError
  ∧ analyzePolicy version_list_not_array = Throw TypeError
  ∧ analyzePolicy null_version_first = Throw TypeError
  ∧ analyzePolicy null_statement = Throw TypeError.
Proof. by vm_compute. Qed.

(** The two conditions of the amended C1 are necessary: when
    [PolicyVersionList] is an array and [analyzePolicy] returns, [find]
    has reached no [null] entry, and a [Statement] array of the default
    document has no [null] entry. *)
Lemma analyzePolicy_returns_only_if (p : value) (versions : list value)
    (r : PolicyAnalysisResult) :
  JS.get p "PolicyVersionList" = Ok (VArr versions) →
  analyzePolicy p = Ok r →
  Forall (λ v, nullish v = false) (reached p versions)
  ∧ ∀ v d items,
      List.find (is_default_version p) versions = Some v →
      JS.get v "Document" = Ok d →
      JS.get d "Statement" = Ok (VArr items) →
      Forall (λ st, nullish st = false) items.
Proof.
  intros Hlist Hr.
  apply analyzePolicy_Ok_inv in Hr as (sts & per & Hn & Hper & _).
  assert (Forall (λ v, nullish v = false) (reached p versions)) as Hreached.
  { unfold normalized_statements in Hn. bind_inv Hn.
    by eapply defaultDocument_reached_inv. }
  split; [done|]. intros v d items Hfind Hd Hs.
  assert (default_document_of p versions = Some d) as Hdoc.
  { apply default_document_of_Some. exists v. split; [done|].
    split; [done|]. by destruct d. }
  unfold normalized_statements in Hn.
  rewrite (defaultDocument_reached _ _ Hlist Hreached), Hdoc in Hn.
  cbn [mbind result_bind] in Hn.
  rewrite (statements_of_Statement _ _ Hs) in Hn. injection Hn as <-.
  by eapply per_statement_flags_not_nullish.
Qed.

(** C1, amended.  For every policy whose [PolicyVersionList] is an array
    in which [find] reaches no [null] entry (none up to the first default
    version), and whose default document, when its [Statement] is an
    array, has no [null] entry in it, [analyzePolicy] returns a
    [PolicyAnalysisResult] without throwing; entries after the default
    version are not looked at.  The finding list is empty and the policy
    not high-risk when there is no default version, when its [Document] is
    absent or falsy, when the [Statement] of the document is absent or
    falsy, and when every statement is not an object, or is without the
    effect [Allow], or has neither [Action] nor [Resource]. *)
Theorem analyzePolicy_returns (p : value) (versions : list value) :
  JS.get p "PolicyVersionList" = Ok (VArr versions) →
  Forall (λ v, nullish v = false) (reached p versions) →
  (∀ v d items,
     List.find (is_default_version p) versions = Some v →
     JS.get v "Document" = Ok d →
     JS.get d "Statement" = Ok (VArr items) →
     Forall (λ st, nullish st = false) items) →
  ∃ r,
    analyzePolicy p = Ok r
    ∧ (List.find (is_default_version p) versions = None →
       flags r = [] ∧ isHighRisk r = false)
    ∧ (∀ v d,
         List.find (is_default_version p) versions = Some v →
         JS.get v "Document" = Ok d →
         (JS.ToBoolean d = false → flags r = [] ∧ isHighRisk r = false)
         ∧ (∀ s,
              JS.get d "Statement" = Ok s →
              match s with
              | VArr items => Forall nothing_to_inspect items
              | _ => JS.ToBoolean s = false ∨ nothing_to_inspect s
              end →
              flags r = [] ∧ isHighRisk r = false)).
Proof.
  intros Hlist Hreached Hitems.
  pose proof (defaultDocument_reached _ _ Hlist Hreached) as Hdoc.
  assert (∀ sts,
    normalized_statements p = Ok sts →
    Forall (λ st, nullish st = false) sts →
    ∃ r, analyzePolicy p = Ok r
         ∧ (Forall nothing_to_inspect sts →
            flags r = [] ∧ isHighRisk r = false)) as Hrun.
  { intros sts Hn Hsts.
    destruct (per_statement_flags_total sts 0 Hsts) as [per Hper].
    destruct (analyzePolicy_Ok_intro _ _ _ Hn Hper) as (r & Hr & Hfl & Hhigh).
    exists r. split; [done|]. intros Hnothing.
    by rewrite Hhigh, Hfl, (per_statement_flags_nothing _ _ _ Hper Hnothing). }
  unfold normalized_statements in Hrun. rewrite Hdoc in Hrun.
  cbn [mbind result_bind] in Hrun.
  destruct (default_document_of p versions) as [d0|] eqn:Hd0.
  - apply default_document_of_Some in Hd0 as (v0 & Hfind & Hget & Htruthy).
    pose proof (get_not_nullish d0 "Statement" (truthy_not_nullish _ Htruthy))
      as Hs0.
    rewrite (statements_of_Statement _ _ Hs0) in Hrun.
    destruct (Hrun _ eq_refl) as (r & Hr & Hempty).
    { apply statement_list_not_nullish. intros items Hs. rewrite Hs in Hs0.
      by eapply Hitems. }
    exists r. split; [done|]. split; [by rewrite Hfind|].
    intros v d Hv Hd. rewrite Hfind in Hv. injection Hv as <-.
    rewrite Hget in Hd. injection Hd as <-.
    split; [by rewrite Htruthy|]. intros s Hs. rewrite Hs0 in Hs.
    injection Hs as <-. intros Hshape.
    by apply Hempty, statement_list_nothing.
  - destruct (Hrun [] eq_refl) as (r & Hr & Hempty); [constructor|].
    specialize (Hempty (Forall_nil_2 _)).
    exists r. split; [done|]. split; [done|]. intros v d Hv Hd.
    split; [done|]. by intros s _ _.
Qed.

Lemma analyzePolicy_returns_witness :
  (∃ r, analyzePolicy null_version_last = Ok r
        ∧ flags r = [] ∧ isHighRisk r = false)
  ∧ (∃ r, analyzePolicy no_statement = Ok r
          ∧ flags r = [] ∧ isHighRisk r = false).
Proof.
  split.
  - destruct (analyzePolicy_returns null_version_last [odd_version; VNull])
      as (r & Hr & _ & Hdefault).
    + reflexivity.
    + vm_compute. repeat constructor.
    + intros v d items Hv Hd Hs.
      vm_compute in Hv. injection Hv as <-.
      vm_compute in Hd. injection Hd as <-.
      vm_compute in Hs. injection Hs as <-. repeat constructor.
    + exists r. split; [exact Hr|].
      destruct (Hdefault odd_version
                  (obj [("Statement", VArr odd_statements)])) as [_ Hs];
        [reflexivity | reflexivity |].
      apply (Hs (VArr odd_statements)); [reflexivity|].
      repeat first [apply Forall_nil_2 | apply Forall_cons_2];
        first [by left | right; left; by vm_compute
              | right; right; by vm_compute].
  - destruct (analyzePolicy_returns no_statement
                [obj [("VersionId", VStr "v1"); ("Document", obj [])]])
      as (r & Hr & _ & Hdefault).
    + reflexivity.
    + vm_compute. repeat constructor.
    + intros v d items Hv Hd Hs.
      vm_compute in Hv. injection Hv as <-.
      vm_compute in Hd. injection Hd as <-.
      vm_compute in Hs. discriminate.
    + exists r. split; [exact Hr|].
      destruct (Hdefault (obj [("VersionId", VStr "v1"); ("Document", obj [])])
                  (obj [])) as [_ Hs];
        [reflexivity | reflexivity |].
      apply (Hs VUndefined); [reflexivity|]. by left.
Defined.

(** C3.  When the version list holds no version whose identifier is
    strictly equal to the default-version identifier, or the version [find]
    returns has no (or a falsy) [Document], [analyzePolicy] returns a result
    with an empty finding list and [isHighRisk = false], and does not
    throw. *)
Theorem analyzePolicy_no_default_document (p : value) (versions : list value) :
  JS.get p "PolicyVersionList" = Ok (VArr versions) →
  Forall (λ v, nullish v = false) versions →
  (List.find (is_default_version p) versions = None
   ∨ ∃ v d, List.find (is_default_version p) versions = Some v
            ∧ JS.get v "Document" = Ok d ∧ JS.ToBoolean d = false) →
  ∃ r, analyzePolicy p = Ok r ∧ flags r = [] ∧ isHighRisk r = false.
Proof.
  intros Hget Hversions Hnone.
  assert (default_document_of p versions = None) as Hdoc.
  { unfold default_document_of.
    destruct Hnone as [->|(v & d & -> & Hd & Hfalsy)]; [done|].
    destruct (JS.ToBoolean v); [|done]. cbv zeta.
    apply get_Ok_field in Hd as <-. by rewrite Hfalsy. }
  pose proof (normalized_statements_no_document _ _ Hget Hversions Hdoc) as Hn.
  destruct (analyzePolicy_Ok_intro p [] [] Hn eq_refl) as (r & Hr & Hfl & Hhigh).
  by exists r.
Qed.

Lemma analyzePolicy_no_default_document_witness :
  (∃ r, analyzePolicy no_default_version = Ok r
        ∧ flags r = [] ∧ isHighRisk r = false)
  ∧ (∃ r, analyzePolicy
            (policy_with_document "undocumented" VUndefined) = Ok r
          ∧ flags r = [] ∧ isHighRisk r = false).
Proof.
  split.
  - apply (analyzePolicy_no_default_document no_default_version one_version).
    + reflexivity.
    + repeat constructor.
    + left. reflexivity.
  - apply (analyzePolicy_no_default_document
             (policy_with_document "undocumented" VUndefined)
             [obj [("VersionId", VStr "v1"); ("Document", VUndefined)]]).
    + reflexivity.
    + repeat constructor.
    + right. eexists _, VUndefined. repeat split; reflexivity.
Defined.

(** Every flag the callback adds for the statement at position [i] names
    [i], and only [i], as its affected statement. *)
Lemma statement_flags_index (st : value) (i : nat) (new : list SecurityFlag)
    (f : SecurityFlag) :
  statement_flags st i = Ok new → f ∈ new → affectedStatements f = [i].
Proof.
  intros Hnew Hf. apply statement_flags_spec in Hnew.
  apply (list_elem_of_fmap_2 finding_of) in Hf.
  change (finding_of <$> new) with (map finding_of new) in Hf.
  rewrite Hnew in Hf. unfold Spec.statement_findings in Hf.
  destruct (bool_decide _); [|by apply elem_of_nil in Hf].
  apply list_elem_of_In, in_flat_map in Hf as (r & _ & Hf).
  destruct (Spec.fires _ _ _); [|done].
  destruct Hf as [Hf|[]]. by apply (f_equal Spec.statement_indices) in Hf.
Qed.

Lemma per_statement_flags_elem (sts : list value) (i : nat)
    (per : list (list SecurityFlag)) (f : SecurityFlag) :
  per_statement_flags sts i = Ok per → f ∈ concat per →
  ∃ k st new, sts !! k = Some st ∧ statement_flags st (i + k) = Ok new
              ∧ f ∈ new.
Proof.
  revert i per. induction sts as [|st sts IH]; intros i per H Hf; simpl in H.
  - injection H as <-. by apply elem_of_nil in Hf.
  - do 2 bind_inv H. injection H as <-. simpl in Hf.
    apply elem_of_app in Hf as [Hf|Hf].
    + exists 0, st, a. by rewrite Nat.add_0_r.
    + destruct (IH _ _ Ha0 Hf) as (k & st' & new & Hk & Hnew & Hin).
      exists (S k), st', new. split; [done|]. split; [|done].
      by replace (i + S k) with (S i + k) by lia.
Qed.

(** C4.  A statement whose [Effect] is anything but the string [Allow]
    leaves [flags] as it found it, whatever its [Action] and [Resource];
    and in the result of an analysis no finding names the position of such
    a statement. *)
Theorem non_Allow_statement_contributes_nothing :
  (∀ (st e : value) (i : nat) (fl : list SecurityFlag),
     JS.get st "Effect" = Ok e → e ≠ VStr "Allow" →
     statement_callback st i fl = Ok fl)
  ∧ (∀ (p : value) (r : PolicyAnalysisResult) (sts : list value)
       (i : nat) (st e : value),
       analyzePolicy p = Ok r → normalized_statements p = Ok sts →
       sts !! i = Some st →
       JS.get st "Effect" = Ok e → e ≠ VStr "Allow" →
       ∀ f, f ∈ flags r → affectedStatements f ≠ [i]).
Proof.
  split.
  - intros st e i fl He Hne.
    rewrite statement_callback_flags,
      (statement_flags_not_Allow st e i He Hne).
    cbn [mbind result_bind]. by rewrite app_nil_r.
  - intros p r sts i st e Hr Hsts Hi He Hne f Hf Hidx.
    apply analyzePolicy_Ok_inv in Hr as (sts' & per & Hsts' & Hper & Hfl & _).
    rewrite Hsts in Hsts'. injection Hsts' as <-. rewrite Hfl in Hf.
    destruct (per_statement_flags_elem _ _ _ _ Hper Hf)
      as (k & st' & new & Hk & Hnew & Hin).
    rewrite (statement_flags_index _ _ _ _ Hnew Hin) in Hidx.
    injection Hidx as <-. simpl in Hk. rewrite Hi in Hk. injection Hk as <-.
    rewrite (statement_flags_not_Allow st e _ He Hne) in Hnew.
    injection Hnew as <-. by apply elem_of_nil in Hin.
Qed.

Lemma non_Allow_statement_contributes_nothing_witness :
  statement_callback deny_everything 0 [] = Ok []
  ∧ ∀ r, analyzePolicy scenario4 = Ok r →
         ∀ f, f ∈ flags r → affectedStatements f ≠ [0].
Proof.
  destruct non_Allow_statement_contributes_nothing as [Hcallback Hresult].
  split.
  - apply (Hcallback deny_everything (VStr "Deny")); [reflexivity | discriminate].
  - intros r Hr.
    apply (Hresult scenario4 r
             [deny_everything;
              obj [("Effect", VStr "Allow");
                   ("Action", VStr "iam:CreateAccessKey")]]
             0 deny_everything (VStr "Deny"));
      [exact Hr | reflexivity | reflexivity | reflexivity | discriminate].
Defined.

(** C5.  The [isHighRisk] field of a result is true exactly when one of
    its findings has severity [HIGH]; when every finding is [MEDIUM] or
    [LOW] it is false. *)
Theorem isHighRisk_iff_HIGH_finding (p : value) (r : PolicyAnalysisResult) :
  analyzePolicy p = Ok r →
  (isHighRisk r = true ↔ ∃ f, f ∈ flags r ∧ severity f = HIGH)
  ∧ ((∀ f, f ∈ flags r → severity f = MEDIUM ∨ severity f = LOW) →
     isHighRisk r = false).
Proof.
  intros (sts & per & _ & _ & _ & Hhigh)%analyzePolicy_Ok_inv.
  rewrite Hhigh. split; [apply some_HIGH_iff|].
  intros Hlow. apply not_true_iff_false.
  intros (f & Hf & Hsev)%some_HIGH_iff.
  destruct (Hlow f Hf); congruence.
Qed.

Lemma isHighRisk_iff_HIGH_finding_witness :
  ∃ r, analyzePolicy scenario3 = Ok r
       ∧ map id (flags r) = ["group-membership"]
       ∧ isHighRisk r = false.
Proof.
  eexists. split; [vm_compute; reflexivity|]. split; [reflexivity|].
  eapply (isHighRisk_iff_HIGH_finding scenario3); [vm_compute; reflexivity|].
  intros f [->|[]%elem_of_nil]%elem_of_cons. by left.
Defined.

(** C2, as the claim states it, fails: on a statement that allows every
    action on every resource the code reports [wildcard-resource] before
    [wildcard-permission], the table's order gives them the other way
    round. *)
Lemma findings_not_in_table_order :
  ∃ r sts,
    analyzePolicy wildcard_everything = Ok r
    ∧ normalized_statements wildcard_everything = Ok sts
    ∧ map id (flags r) = ["wildcard-resource"; "wildcard-permission"]
    ∧ map Spec.rule_key (Spec.findings Spec.catalog sts)
      = ["wildcard-permission"; "wildcard-resource"]
    ∧ map finding_of (flags r) ≠ Spec.findings Spec.catalog sts.
Proof.
  eexists _, _. split; [vm_compute; reflexivity|].
  split; [vm_compute; reflexivity|].
  split; [reflexivity|]. split; [reflexivity|].
  intros H. by vm_compute in H.
Qed.

(** C2, amended.  The finding list of [analyzePolicy] is the concatenation,
    over the statements in their normalized order, of each statement's
    matches, listed with [wildcard-resource] first and then in the order
    of the rule table: [wildcard-permission], [wildcard-iam],
    [create-policy-version], and so on through
    [datapipeline-privilege-escalation]. *)
Theorem findings_in_evaluation_order (p : value) (r : PolicyAnalysisResult) :
  analyzePolicy p = Ok r →
  ∃ sts, normalized_statements p = Ok sts
         ∧ map finding_of (flags r)
           = Spec.findings Spec.resource_rule_first sts.
Proof.
  intros (sts & per & Hsts & Hper & Hfl & _)%analyzePolicy_Ok_inv.
  exists sts. split; [done|].
  by rewrite Hfl, (per_statement_flags_spec _ _ _ Hper).
Qed.

Lemma findings_in_evaluation_order_witness :
  ∃ r sts,
    analyzePolicy wildcard_everything = Ok r
    ∧ normalized_statements wildcard_everything = Ok sts
    ∧ map finding_of (flags r) = Spec.findings Spec.resource_rule_first sts.
Proof.
  eexists.
  destruct (findings_in_evaluation_order wildcard_everything _
              ltac:(vm_compute; reflexivity)) as (sts & Hsts & Hfl).
  exists sts. split; [vm_compute; reflexivity|]. by split.
Defined.

(** ** The scenarios *)

Lemma analyzePolicy_one_statement (p d st : value) (new : list SecurityFlag) :
  defaultDocument p = Ok (Some d) →
  statements_of d = Ok [st] →
  statement_flags st 0 = Ok new →
  ∃ r, analyzePolicy p = Ok r
       ∧ normalized_statements p = Ok [st]
       ∧ flags r = new
       ∧ isHighRisk r = JS.some (λ f, bool_decide (severity f = HIGH)) new.
Proof.
  intros Hd Hsts Hnew.
  assert (normalized_statements p = Ok [st]) as Hn.
  { unfold normalized_statements. by rewrite Hd. }
  assert (per_statement_flags [st] 0 = Ok [new]) as Hper.
  { simpl. by rewrite Hnew. }
  destruct (analyzePolicy_Ok_intro _ _ _ Hn Hper) as (r & Hr & Hfl & Hhigh).
  simpl in Hfl, Hhigh. rewrite app_nil_r in Hfl, Hhigh. by exists r.
Qed.

(** C6.  A default document with exactly one statement, with [Effect]
    [Allow], [Action] the list [iam:PassRole], [ec2:RunInstances] and
    [Resource] the string [*], yields exactly three findings:
    [wildcard-resource], [passrole-any] and [passrole-ec2], each naming
    statement 0; and [isHighRisk] is true. *)
Theorem passrole_ec2_scenario (p d st : value) :
  defaultDocument p = Ok (Some d) →
  statements_of d = Ok [st] →
  JS.get st "Effect" = Ok (VStr "Allow") →
  JS.get st "Action"
  = Ok (VArr [VStr "iam:PassRole"; VStr "ec2:RunInstances"]) →
  JS.get st "Resource" = Ok (VStr "*") →
  ∃ r, analyzePolicy p = Ok r
       ∧ flags r = [flag "wildcard-resource" WILDCARD_RESOURCE 0;
                    flag "passrole-any" PASSROLE_ANY 0;
                    flag "passrole-ec2" PASSROLE_EC2 0]
       ∧ map id (flags r)
         = ["wildcard-resource"; "passrole-any"; "passrole-ec2"]
       ∧ map affectedStatements (flags r) = [[0]; [0]; [0]]
       ∧ isHighRisk r = true.
Proof.
  intros Hd Hsts Heff Hact Hres.
  edestruct (analyzePolicy_one_statement p d st)
    as (r & Hr & _ & Hfl & Hhigh); [done | done | |].
  - unfold statement_flags, statement_callback.
    rewrite Heff, Hact, Hres. vm_compute. reflexivity.
  - exists r. split; [done|]. rewrite Hhigh, Hfl. by vm_compute.
Qed.

Lemma passrole_ec2_scenario_witness :
  ∃ r, analyzePolicy scenario1 = Ok r
       ∧ flags r = [flag "wildcard-resource" WILDCARD_RESOURCE 0;
                    flag "passrole-any" PASSROLE_ANY 0;
                    flag "passrole-ec2" PASSROLE_EC2 0]
       ∧ map id (flags r)
         = ["wildcard-resource"; "passrole-any"; "passrole-ec2"]
       ∧ map affectedStatements (flags r) = [[0]; [0]; [0]]
       ∧ isHighRisk r = true.
Proof.
  eapply (passrole_ec2_scenario scenario1); reflexivity.
Defined.

(** C7.  When [Statement] of the default document is a single statement
    object, not a sequence, with [Effect] [Allow] and [Action] [iam:*], the
    analyzer runs on the one-element sequence holding that object and
    reports [wildcard-iam] for statement 0; without a [Resource] that is
    the only finding. *)
Theorem bare_statement_scenario (p d : value) (props : gmap string value) :
  defaultDocument p = Ok (Some d) →
  JS.get d "Statement" = Ok (VObj props) →
  JS.get (VObj props) "Effect" = Ok (VStr "Allow") →
  JS.get (VObj props) "Action" = Ok (VStr "iam:*") →
  ∃ r, analyzePolicy p = Ok r
       ∧ normalized_statements p = Ok [VObj props]
       ∧ flag "wildcard-iam" WILDCARD_IAM 0 ∈ flags r
       ∧ List.filter (λ f, String.eqb (id f) "wildcard-iam") (flags r)
         = [flag "wildcard-iam" WILDCARD_IAM 0]
       ∧ (JS.get (VObj props) "Resource" = Ok VUndefined →
          flags r = [flag "wildcard-iam" WILDCARD_IAM 0]).
Proof.
  intros Hd Hsts Heff Hact.
  destruct (JS.get (VObj props) "Resource") as [res|] eqn:Hres; [|done].
  set (c := JS.some (λ r, JS.typeof_string r && JS.strict_equals r (VStr "*"))
              (resources_of res)).
  assert (res = VUndefined → c = false) as Hc by by intros ->.
  edestruct (analyzePolicy_one_statement p d (VObj props)
               (push_if c (flag "wildcard-resource" WILDCARD_RESOURCE 0) []
                ++ [flag "wildcard-iam" WILDCARD_IAM 0]))
    as (r & Hr & Hn & Hfl & _); [done| | |].
  - unfold statements_of. by rewrite Hsts.
  - unfold statement_flags, statement_callback.
    rewrite Heff, Hact, Hres. cbn [mbind result_bind].
    unfold check_statement. cbv zeta. fold c. clearbody c.
    by destruct c; vm_compute.
  - exists r. rewrite Hfl. split; [done|]. split; [done|].
    split; [apply elem_of_app; right; left|].
    split; [clearbody c; by destruct c|].
    intros [= ->]. by rewrite Hc.
Qed.

Lemma bare_statement_scenario_witness :
  ∃ r, analyzePolicy scenario5 = Ok r
       ∧ normalized_statements scenario5 = Ok [VObj bare_statement]
       ∧ flag "wildcard-iam" WILDCARD_IAM 0 ∈ flags r
       ∧ List.filter (λ f, String.eqb (id f) "wildcard-iam") (flags r)
         = [flag "wildcard-iam" WILDCARD_IAM 0]
       ∧ (JS.get (VObj bare_statement) "Resource" = Ok VUndefined →
          flags r = [flag "wildcard-iam" WILDCARD_IAM 0]).
Proof.
  eapply (bare_statement_scenario scenario5); reflexivity.
Defined.

(** C8.  Findings only accumulate.  Appending an [Allow] statement to the
    statement sequence of the default document keeps the findings of the
    original statements, in place, and adds those of the new statement
    after them; and inserting one more action string into the action list
    of an [Allow] statement keeps every finding the statement fired
    before, in the same order. *)
Theorem findings_monotone :
  (∀ (p p' : value) (sts : list value) (st : value)
     (r : PolicyAnalysisResult),
     normalized_statements p = Ok sts →
     normalized_statements p' = Ok (sts ++ [st]) →
     JS.get st "Effect" = Ok (VStr "Allow") →
     analyzePolicy p = Ok r →
     ∃ r' added,
       analyzePolicy p' = Ok r'
       ∧ statement_flags st (length sts) = Ok added
       ∧ flags r' = flags r ++ added
       ∧ ∀ f, f ∈ flags r → f ∈ flags r')
  ∧ (∀ (st st' : value) (i : nat) (pre post : list value) (a : string),
       JS.get st "Effect" = Ok (VStr "Allow") →
       JS.get st' "Effect" = Ok (VStr "Allow") →
       JS.get st "Action" = Ok (VArr (pre ++ post)) →
       JS.get st' "Action" = Ok (VArr (pre ++ VStr a :: post)) →
       JS.get st' "Resource" = JS.get st "Resource" →
       ∃ old new,
         statement_flags st i = Ok old
         ∧ statement_flags st' i = Ok new
         ∧ old `sublist_of` new
         ∧ ∀ f, f ∈ old → f ∈ new).
Proof.
  split.
  - intros p p' sts st r Hsts Hsts' Heff Hr.
    apply analyzePolicy_Ok_inv in Hr as (sts0 & per & Hsts0 & Hper & Hfl & _).
    rewrite Hsts in Hsts0. injection Hsts0 as <-.
    destruct (statement_flags_total st (length sts)) as [added Hadded];
      [by eapply get_Ok_not_nullish|].
    assert (per_statement_flags (sts ++ [st]) 0 = Ok (per ++ [added])) as Hper'.
    { rewrite per_statement_flags_app, Hper. simpl. by rewrite Hadded. }
    destruct (analyzePolicy_Ok_intro _ _ _ Hsts' Hper') as (r' & Hr' & Hfl' & _).
    exists r', added. split; [done|]. split; [done|].
    assert (flags r' = flags r ++ added) as Happ.
    { rewrite Hfl', Hfl, concat_app. simpl. by rewrite app_nil_r. }
    split; [done|]. intros f Hf. rewrite Happ. apply elem_of_app. by left.
  - intros st st' i pre post a Heff Heff' Hact Hact' Hres.
    pose proof (get_Ok_not_nullish _ _ _ Heff) as Hst.
    unfold statement_flags, statement_callback.
    rewrite Heff, Heff', Hact, Hact', Hres.
    rewrite (get_not_nullish st "Resource") by done.
    cbn [mbind result_bind]. change (negb _) with false. cbv iota.
    eexists _, _. split; [done|]. split; [done|].
    cbn [actionsRaw_of].
    assert (check_statement (JS.filter_strings (pre ++ post))
              (resources_of (default VUndefined (JS.own_property st "Resource"))) i []
            `sublist_of`
            check_statement (JS.filter_strings (pre ++ VStr a :: post))
              (resources_of (default VUndefined (JS.own_property st "Resource"))) i [])
      as Hsub by apply check_statement_mono, filter_strings_insert.
    split; [done|]. intros f Hf. by eapply elem_of_sublist.
Qed.

Lemma findings_monotone_witness :
  (∃ r r' added,
     analyzePolicy deny_only = Ok r
     ∧ analyzePolicy scenario4 = Ok r'
     ∧ statement_flags
         (obj [("Effect", VStr "Allow");
               ("Action", VStr "iam:CreateAccessKey")]) 1 = Ok added
     ∧ flags r' = flags r ++ added
     ∧ ∀ f, f ∈ flags r → f ∈ flags r')
  ∧ (∃ old new,
       statement_flags passrole_only 0 = Ok old
       ∧ statement_flags passrole_and_run 0 = Ok new
       ∧ old `sublist_of` new
       ∧ ∀ f, f ∈ old → f ∈ new).
Proof.
  destruct findings_monotone as [Hstatement Haction]. split.
  - eexists.
    edestruct (Hstatement deny_only scenario4 [deny_everything])
      as (r' & added & H);
      [reflexivity | reflexivity | reflexivity | vm_compute; reflexivity |].
    exists r', added. split; [vm_compute; reflexivity | exact H].
  - apply (Haction passrole_only passrole_and_run 0
             [VStr "iam:PassRole"] [] "ec2:RunInstances");
      reflexivity.
Defined.

(** ** Aggregation *)

Lemma Array_map_Forall2 {A B : Type} (f : A → result B) (l : list A)
    (rs : list B) :
  JS.Array_map f l = Ok rs → Forall2 (λ x r, f x = Ok r) l rs.
Proof.
  revert rs. induction l as [|x l IH]; intros rs H; simpl in H.
  - injection H as <-. constructor.
  - do 2 bind_inv H. injection H as <-. constructor; eauto.
Qed.

Lemma analyzeAllPolicies_results (policies : list (string * value))
    (results : list PolicyAnalysisResult) :
  analyzeAllPolicies policies = Ok results →
  length results = length policies
  ∧ Forall (λ r, ∃ p, analyzePolicy p = Ok r) results.
Proof.
  intros H%Array_map_Forall2. split.
  - rewrite <- (Forall2_length _ _ _ H). unfold Object_values.
    by rewrite length_map.
  - induction H as [|p r ps rs Hr _ IH]; constructor; eauto.
Qed.

Lemma isHighRisk_Exists (p : value) (r : PolicyAnalysisResult) :
  analyzePolicy p = Ok r →
  isHighRisk r = true ↔ Exists (λ f, severity f = HIGH) (flags r).
Proof.
  intros (sts & per & _ & _ & _ & Hhigh)%analyzePolicy_Ok_inv.
  rewrite Hhigh, some_HIGH_iff, Exists_exists. done.
Qed.

Lemma filter_bool_decide {A : Type} (P : A → Prop) `{!∀ x, Decision (P x)}
    (l : list A) :
  List.filter (λ x, bool_decide (P x)) l = filter P l.
Proof.
  induction l as [|x l IH]; [done|]. cbn [List.filter].
  rewrite filter_cons, IH. by destruct (decide (P x)) as [Hx|Hx];
    [rewrite bool_decide_eq_true_2 | rewrite bool_decide_eq_false_2].
Qed.

Lemma filter_isHighRisk (results : list PolicyAnalysisResult) :
  Forall (λ r, ∃ p, analyzePolicy p = Ok r) results →
  List.filter (λ r, isHighRisk r) results
  = filter (λ r, Exists (λ f, severity f = HIGH) (flags r)) results.
Proof.
  intros H. rewrite <- filter_bool_decide. apply List.filter_ext_in.
  intros r Hin. rewrite Forall_forall in H.
  destruct (H r) as [p Hp]; [by apply list_elem_of_In|].
  apply isHighRisk_Exists in Hp.
  destruct (isHighRisk r); symmetry.
  - apply bool_decide_eq_true_2. by apply Hp.
  - apply bool_decide_eq_false_2. intros He%Hp. discriminate.
Qed.

Lemma reduce_sum {A : Type} (g : A → nat) (l : list A) (start : nat) :
  fold_left (λ sum r, sum + g r) l start = start + sum_list (map g l).
Proof.
  revert start. induction l as [|x l IH]; intros start; simpl.
  - lia.
  - rewrite IH. lia.
Qed.

Lemma sum_list_lengths {A : Type} (ls : list (list A)) :
  sum_list (map length ls) = length (concat ls).
Proof.
  induction ls as [|l ls IH]; simpl; [done|]. by rewrite length_app, IH.
Qed.

(** C9.  [getSecuritySummary] returns the four aggregates of the results
    of [analyzeAllPolicies]: the number of analyzed policies, the number of
    results with [isHighRisk] true (equally: with at least one [HIGH]
    finding), the total length of the finding lists, and the total number
    of [HIGH] findings.  For [scenario6], three policies of which one has a
    [HIGH] finding and one only a [MEDIUM] finding, [highRiskPolicies] is
    1. *)
Theorem getSecuritySummary_aggregates (policies : list (string * value))
    (results : list PolicyAnalysisResult) :
  analyzeAllPolicies policies = Ok results →
  ∃ s, getSecuritySummary policies = Ok s
       ∧ totalPolicies s = length results
       ∧ totalPolicies s = length policies
       ∧ highRiskPolicies s
         = length (filter (λ r, isHighRisk r = true) results)
       ∧ highRiskPolicies s
         = length (filter (λ r, Exists (λ f, severity f = HIGH) (flags r))
                     results)
       ∧ totalSecurityFlags s = sum_list (map (λ r, length (flags r)) results)
       ∧ totalSecurityFlags s = length (concat (map flags results))
       ∧ highSeverityFlags s
         = length (filter (λ f, severity f = HIGH)
                     (concat (map flags results))).
Proof.
  intros H. destruct (analyzeAllPolicies_results _ _ H) as [Hlen Hall].
  unfold getSecuritySummary. rewrite H. cbn [mbind result_bind]. cbv zeta.
  eexists. split; [done|]. cbn [totalPolicies highRiskPolicies
    totalSecurityFlags highSeverityFlags].
  rewrite !reduce_sum, !Nat.add_0_l.
  repeat split; try done.
  - f_equal. rewrite <- filter_bool_decide. apply List.filter_ext.
    intros r. by destruct (isHighRisk r).
  - by rewrite filter_isHighRisk.
  - by rewrite <- sum_list_lengths, map_map.
  - rewrite <- filter_bool_decide, <- List.concat_filter_map,
      <- sum_list_lengths, !map_map. done.
Qed.

Lemma getSecuritySummary_aggregates_witness :
  getSecuritySummary scenario6
  = Ok {| totalPolicies := 3; highRiskPolicies := 1;
          totalSecurityFlags := 2; highSeverityFlags := 1 |}
  ∧ ∃ results s,
      analyzeAllPolicies scenario6 = Ok results
      ∧ getSecuritySummary scenario6 = Ok s
      ∧ highRiskPolicies s
        = length (filter (λ r, Exists (λ f, severity f = HIGH) (flags r))
                    results)
      ∧ highRiskPolicies s = 1.
Proof.
  split; [vm_compute; reflexivity|]. eexists.
  edestruct (getSecuritySummary_aggregates scenario6)
    as (s & Hs & _ & _ & _ & Hhigh & _); [vm_compute; reflexivity|].
  exists s. split; [vm_compute; reflexivity|]. split; [exact Hs|].
  split; [exact Hhigh|].
  assert (getSecuritySummary scenario6
          = Ok {| totalPolicies := 3; highRiskPolicies := 1;
                  totalSecurityFlags := 2; highSeverityFlags := 1 |}) as E
    by (vm_compute; reflexivity).
  rewrite E in Hs. by injection Hs as <-.
Defined.

(** C10.  [getHighRiskPolicies] returns the results of
    [analyzeAllPolicies] whose [isHighRisk] is true, in their order: a
    subsequence of the results in which every result has a [HIGH] finding,
    and which leaves out no result that is high-risk or has one. *)
Theorem getHighRiskPolicies_subsequence (policies : list (string * value))
    (results : list PolicyAnalysisResult) :
  analyzeAllPolicies policies = Ok results →
  ∃ high, getHighRiskPolicies policies = Ok high
          ∧ high = filter (λ r, isHighRisk r = true) results
          ∧ high `sublist_of` results
          ∧ (∀ r, r ∈ high →
                  isHighRisk r = true
                  ∧ ∃ f, f ∈ flags r ∧ severity f = HIGH)
          ∧ (∀ r, r ∈ results → isHighRisk r = true → r ∈ high)
          ∧ (∀ r f, r ∈ results → f ∈ flags r → severity f = HIGH →
                    r ∈ high).
Proof.
  intros H. destruct (analyzeAllPolicies_results _ _ H) as [_ Hall].
  rewrite Forall_forall in Hall.
  unfold getHighRiskPolicies. rewrite H. cbn [mbind result_bind].
  eexists. split; [done|].
  assert (List.filter (λ r, isHighRisk r) results
          = filter (λ r, isHighRisk r = true) results) as ->.
  { rewrite <- filter_bool_decide. apply List.filter_ext.
    intros r. by destruct (isHighRisk r). }
  split; [done|]. split; [apply sublist_filter|].
  split; [|split].
  - intros r [Hhigh Hin]%list_elem_of_filter. split; [done|].
    destruct (Hall r Hin) as [p Hp].
    by apply (isHighRisk_Exists p r Hp), Exists_exists in Hhigh.
  - intros r Hin Hhigh. by apply list_elem_of_filter.
  - intros r f Hin Hf Hsev. apply list_elem_of_filter. split; [|done].
    destruct (Hall r Hin) as [p Hp]. apply (isHighRisk_Exists p r Hp).
    apply Exists_exists. eauto.
Qed.

Lemma getHighRiskPolicies_subsequence_witness :
  ∃ results high,
    analyzeAllPolicies scenario6 = Ok results
    ∧ getHighRiskPolicies scenario6 = Ok high
    ∧ map policyId high = [VStr "scenario4"]
    ∧ high `sublist_of` results.
Proof.
  eexists.
  edestruct (getHighRiskPolicies_subsequence scenario6)
    as (high & Hhigh & _ & Hsub & _); [vm_compute; reflexivity|].
  exists high. split; [vm_compute; reflexivity|]. split; [exact Hhigh|].
  split; [|exact Hsub].
  assert (∃ h, getHighRiskPolicies scenario6 = Ok h
               ∧ map policyId h = [VStr "scenario4"]) as (h & Hh & Hid)
    by (eexists; split; [vm_compute; reflexivity | reflexivity]).
  rewrite Hh in Hhigh. by injection Hhigh as <-.
Defined.

(** * Further properties of the analyzer *)

(** ** One statement at a time *)

Lemma fired_sublist_cons (c : bool) (f : SecurityFlag)
    (l k : list SecurityFlag) :
  l `sublist_of` k → (if c then [f] else []) ++ l `sublist_of` f :: k.
Proof. destruct c; simpl; [apply sublist_skip | apply sublist_cons]. Qed.

Lemma check_statement_every_flag (actions : list string)
    (resources : list value) (i : nat) :
  check_statement actions resources i [] `sublist_of` every_flag i.
Proof.
  unfold check_statement, every_flag. cbv zeta.
  rewrite !push_if_nil, app_nil_l, <- !app_assoc.
  repeat apply fired_sublist_cons.
  destruct (_ && _); [done | apply sublist_nil_l].
Qed.

Lemma statement_flags_every_flag (st : value) (i : nat)
    (new : list SecurityFlag) :
  statement_flags st i = Ok new → new `sublist_of` every_flag i.
Proof.
  unfold statement_flags, statement_callback. intros H.
  bind_inv H. destruct (negb _).
  - injection H as <-. apply sublist_nil_l.
  - do 2 bind_inv H. injection H as <-. apply check_statement_every_flag.
Qed.

Lemma every_flag_ids (i : nat) :
  map id (every_flag i) = map Spec.key Spec.resource_rule_first.
Proof. reflexivity. Qed.

Lemma per_statement_flags_member (sts : list value) (j : nat)
    (per : list (list SecurityFlag)) (f : SecurityFlag) :
  per_statement_flags sts j = Ok per → f ∈ concat per →
  ∃ k, affectedStatements f = [j + k].
Proof.
  intros Hper Hf.
  destruct (per_statement_flags_elem _ _ _ _ Hper Hf)
    as (k & st & new & _ & Hnew & Hin).
  exists k. by eapply statement_flags_index.
Qed.

Lemma flags_for_earlier (sts : list value) (j i : nat)
    (per : list (list SecurityFlag)) :
  per_statement_flags sts j = Ok per → i < j → flags_for i (concat per) = [].
Proof.
  intros Hper Hlt. unfold flags_for.
  destruct (filter _ (concat per)) as [|f rest] eqn:E; [done|].
  assert (f ∈ filter (λ f, affectedStatements f = [i]) (concat per)) as Hf
    by (rewrite E; left).
  apply list_elem_of_filter in Hf as [Hidx Hf].
  destruct (per_statement_flags_member _ _ _ _ Hper Hf) as [k Hk].
  rewrite Hidx in Hk. injection Hk as ->. lia.
Qed.

Lemma flags_for_own (st : value) (i k : nat) (new : list SecurityFlag) :
  statement_flags st i = Ok new →
  flags_for k new = if decide (k = i) then new else [].
Proof.
  intros Hnew. unfold flags_for.
  assert (Forall (λ f, affectedStatements f = [i]) new) as Hall.
  { apply Forall_forall. intros f Hf. by eapply statement_flags_index. }
  clear Hnew. destruct (decide (k = i)) as [->|Hne].
  - induction Hall as [|f new Hf _ IH]; [done|].
    by rewrite filter_cons_True, IH.
  - induction Hall as [|f new Hf _ IH]; [done|].
    rewrite filter_cons_False; [done|]. rewrite Hf. congruence.
Qed.

Lemma flags_for_lookup (sts : list value) (j k : nat)
    (per : list (list SecurityFlag)) :
  per_statement_flags sts j = Ok per →
  flags_for (j + k) (concat per) = default [] (per !! k).
Proof.
  revert j k per. induction sts as [|st sts IH]; intros j k per H; simpl in H.
  - injection H as <-. by destruct k.
  - do 2 bind_inv H. injection H as <-. cbn [concat].
    unfold flags_for. rewrite filter_app. fold (flags_for (j + k) a).
    fold (flags_for (j + k) (concat a0)).
    rewrite (flags_for_own _ _ _ _ Ha). destruct k as [|k].
    + rewrite decide_True by lia.
      rewrite (flags_for_earlier _ _ _ _ Ha0) by lia. by rewrite app_nil_r.
    + rewrite decide_False by lia. simpl.
      replace (j + S k) with (S j + k) by lia. by apply IH.
Qed.

Lemma per_statement_flags_Forall2 (sts : list value) (j : nat)
    (per : list (list SecurityFlag)) :
  per_statement_flags sts j = Ok per →
  length per = length sts
  ∧ ∀ k st, sts !! k = Some st →
            ∃ new, per !! k = Some new ∧ statement_flags st (j + k) = Ok new.
Proof.
  revert j per. induction sts as [|st sts IH]; intros j per H; simpl in H.
  - injection H as <-. split; [done|]. by intros [].
  - do 2 bind_inv H. injection H as <-.
    destruct (IH _ _ Ha0) as [Hlen Hlook]. split; [simpl; lia|].
    intros [|k] st' Hk; simpl in Hk.
    + injection Hk as <-. exists a. by rewrite Nat.add_0_r.
    + destruct (Hlook k st' Hk) as (new & Hnew & Hfl).
      exists new. split; [done|]. by replace (j + S k) with (S j + k) by lia.
Qed.

(** X1.  The findings of a result that name statement [i] are exactly what
    the callback produced for statement [i], in the callback's order; for a
    position beyond the last statement there are none. *)
Theorem findings_by_statement (p : value) (r : PolicyAnalysisResult)
    (sts : list value) (i : nat) :
  analyzePolicy p = Ok r →
  normalized_statements p = Ok sts →
  match sts !! i with
  | Some st => statement_flags st i = Ok (flags_for i (flags r))
  | None => flags_for i (flags r) = []
  end.
Proof.
  intros (sts' & per & Hsts' & Hper & Hfl & _)%analyzePolicy_Ok_inv Hsts.
  rewrite Hsts in Hsts'. injection Hsts' as <-.
  pose proof (flags_for_lookup _ 0 i _ Hper) as Hl.
  change (0 + i) with i in Hl. rewrite Hfl, Hl.
  destruct (per_statement_flags_Forall2 _ _ _ Hper) as [Hlen Hlook].
  destruct (sts !! i) as [st|] eqn:Hi.
  - destruct (Hlook i st Hi) as (new & -> & Hnew). done.
  - apply lookup_ge_None in Hi. rewrite lookup_ge_None_2 by lia. done.
Qed.

Lemma findings_by_statement_witness :
  ∃ r, analyzePolicy scenario4 = Ok r
       ∧ statement_flags deny_everything 0 = Ok (flags_for 0 (flags r))
       ∧ flags_for 2 (flags r) = [].
Proof.
  eexists. split; [vm_compute; reflexivity|].
  pose proof (λ i, findings_by_statement scenario4 _
                     [deny_everything;
                      obj [("Effect", VStr "Allow");
                           ("Action", VStr "iam:CreateAccessKey")]] i
                     ltac:(vm_compute; reflexivity) eq_refl) as H.
  split; [exact (H 0) | exact (H 2)].
Defined.

Lemma every_flag_NoDup (i : nat) : NoDup (map id (every_flag i)).
Proof. rewrite every_flag_ids. apply (bool_decide_unpack _). by vm_compute. Qed.

Lemma flags_for_statement (p : value) (r : PolicyAnalysisResult) (i : nat) :
  analyzePolicy p = Ok r →
  flags_for i (flags r) = []
  ∨ ∃ st, statement_flags st i = Ok (flags_for i (flags r)).
Proof.
  intros (sts & per & Hsts & Hper & Hfl & _)%analyzePolicy_Ok_inv.
  pose proof (flags_for_lookup _ 0 i _ Hper) as Hl.
  change (0 + i) with i in Hl. rewrite Hfl, Hl.
  destruct (per_statement_flags_Forall2 _ _ _ Hper) as [Hlen Hlook].
  destruct (sts !! i) as [st|] eqn:Hi.
  - destruct (Hlook i st Hi) as (new & -> & Hnew). right. by exists st.
  - apply lookup_ge_None in Hi. rewrite lookup_ge_None_2 by lia. by left.
Qed.

Lemma per_statement_flags_length (sts : list value) (j : nat)
    (per : list (list SecurityFlag)) :
  per_statement_flags sts j = Ok per →
  length (concat per) ≤ 20 * length sts.
Proof.
  revert j per. induction sts as [|st sts IH]; intros j per H; simpl in H.
  - by injection H as <-.
  - do 2 bind_inv H. injection H as <-. cbn [concat length].
    rewrite length_app. specialize (IH _ _ Ha0).
    apply statement_flags_every_flag, sublist_length in Ha.
    change (length (every_flag j)) with 20 in Ha. lia.
Qed.

(** X2.  No check reports twice for one statement, and the checks report
    in a fixed order: the findings naming statement [i] are a subsequence
    of the twenty flags of [every_flag i], their ids are pairwise different,
    and a result holds at most twenty findings per statement. *)
Theorem findings_per_statement_bounded (p : value) (r : PolicyAnalysisResult)
    (sts : list value) :
  analyzePolicy p = Ok r →
  normalized_statements p = Ok sts →
  length (flags r) ≤ 20 * length sts
  ∧ ∀ i, flags_for i (flags r) `sublist_of` every_flag i
         ∧ NoDup (map id (flags_for i (flags r))).
Proof.
  intros Hr Hsts. split.
  - apply analyzePolicy_Ok_inv in Hr as (sts' & per & Hsts' & Hper & -> & _).
    rewrite Hsts in Hsts'. injection Hsts' as <-.
    by eapply per_statement_flags_length.
  - intros i.
    assert (flags_for i (flags r) `sublist_of` every_flag i) as Hsub.
    { destruct (flags_for_statement p r i Hr) as [->|[st Hst]].
      - apply sublist_nil_l.
      - by eapply statement_flags_every_flag. }
    split; [done|].
    eapply sublist_NoDup; [apply every_flag_NoDup|].
    by apply (fmap_sublist id) in Hsub.
Qed.

Lemma findings_per_statement_bounded_witness :
  ∃ r, analyzePolicy scenario1 = Ok r
       ∧ length (flags r) ≤ 20 * 1
       ∧ ∀ i, flags_for i (flags r) `sublist_of` every_flag i
              ∧ NoDup (map id (flags_for i (flags r))).
Proof.
  eexists. split; [vm_compute; reflexivity|].
  apply (findings_per_statement_bounded scenario1 _ [passrole_and_run]);
    [vm_compute; reflexivity | reflexivity].
Defined.

Lemma every_flag_severity (i : nat) :
  Forall (λ f, severity f
               = if bool_decide (id f ∈ medium_ids) then MEDIUM else HIGH)
    (every_flag i).
Proof. repeat constructor. Qed.

(** X3.  The analyzer never produces a finding of severity [LOW]: a
    finding is [MEDIUM] when its id is [group-membership],
    [lambda-code-update] or [glue-endpoint-manipulation], and [HIGH]
    otherwise. *)
Theorem findings_never_LOW (p : value) (r : PolicyAnalysisResult)
    (f : SecurityFlag) :
  analyzePolicy p = Ok r → f ∈ flags r →
  severity f = (if bool_decide (id f ∈ medium_ids) then MEDIUM else HIGH)
  ∧ severity f ≠ LOW.
Proof.
  intros (sts & per & _ & Hper & -> & _)%analyzePolicy_Ok_inv Hf.
  destruct (per_statement_flags_elem _ _ _ _ Hper Hf)
    as (k & st & new & _ & Hnew & Hin).
  apply statement_flags_every_flag in Hnew.
  pose proof (elem_of_sublist _ _ _ Hin Hnew) as Hevery.
  pose proof (every_flag_severity (0 + k)) as Hall.
  rewrite Forall_forall in Hall. specialize (Hall f Hevery).
  split; [done|]. rewrite Hall. by destruct (bool_decide _).
Qed.

Lemma findings_never_LOW_witness :
  ∃ r f, analyzePolicy scenario3 = Ok r ∧ f ∈ flags r
         ∧ severity f = MEDIUM ∧ severity f ≠ LOW.
Proof.
  eexists _, (flag "group-membership" GROUP_MEMBERSHIP 0).
  split; [vm_compute; reflexivity|]. split; [left|].
  eapply (findings_never_LOW scenario3); [vm_compute; reflexivity | left].
Defined.

(** ** Which checks report together *)

Lemma elem_of_ids_push_if (x : string) (c : bool) (g : SecurityFlag)
    (fl : list SecurityFlag) :
  x ∈ map id (push_if c g fl) ↔ x ∈ map id fl ∨ (c = true ∧ x = id g).
Proof.
  destruct c; simpl.
  - rewrite map_app, elem_of_app. simpl. rewrite list_elem_of_singleton.
    intuition.
  - intuition discriminate.
Qed.

Ltac reported_ids :=
  unfold check_statement, Pattern.patterns; cbv zeta;
  cbn [Pattern.pattern WILDCARD_PERMISSION WILDCARD_IAM CREATE_POLICY_VERSION
       POLICY_VERSION_MANIPULATION PASSROLE_ANY LOGIN_PROFILE_MANIPULATION
       POLICY_ATTACHMENT INLINE_POLICY_MANIPULATION];
  rewrite !elem_of_ids_push_if; cbn [id flag map]; rewrite elem_of_nil.

Ltac pick_reported H :=
  first [ solve [right; split; [|reflexivity]; exact H]
        | left; pick_reported H ].

Ltac reported_iff :=
  let H := fresh "H" in
  let Hc := fresh "Hc" in
  let Hid := fresh "Hid" in
  split;
  [ intros H;
    repeat (destruct H as [H|[Hc Hid]];
            [|first [discriminate Hid | exact Hc]]);
    destruct H
  | intros H; pick_reported H ].

Lemma reported_passrole_any (actions : list string) (resources : list value)
    (i : nat) :
  "passrole-any" ∈ map id (check_statement actions resources i [])
  ↔ JS.includes actions "iam:PassRole" = true.
Proof. reported_ids. reported_iff. Qed.

Lemma reported_policy_version_manipulation (actions : list string)
    (resources : list value) (i : nat) :
  "policy-version-manipulation"
    ∈ map id (check_statement actions resources i [])
  ↔ JS.some (λ action,
       JS.includes ["iam:CreatePolicyVersion"; "iam:SetDefaultPolicyVersion"]
         action) actions = true.
Proof. reported_ids. reported_iff. Qed.

Lemma reported_create_policy_version (actions : list string)
    (resources : list value) (i : nat) :
  "create-policy-version" ∈ map id (check_statement actions resources i [])
  ↔ JS.includes actions "iam:CreatePolicyVersion" = true.
Proof. reported_ids. reported_iff. Qed.

Lemma reported_passrole_combination (actions : list string)
    (resources : list value) (i : nat) (x : string) :
  x ∈ passrole_combination_ids →
  x ∈ map id (check_statement actions resources i []) →
  JS.includes actions "iam:PassRole" = true.
Proof.
  unfold passrole_combination_ids. rewrite !elem_of_cons, elem_of_nil.
  intros Hx. reported_ids. rewrite !andb_true_iff.
  intuition (subst; try discriminate).
Qed.

Lemma check_statement_implications (actions : list string)
    (resources : list value) (i : nat) :
  let ids := map id (check_statement actions resources i []) in
  ("create-policy-version" ∈ ids → "policy-version-manipulation" ∈ ids)
  ∧ (∀ x, x ∈ passrole_combination_ids → x ∈ ids → "passrole-any" ∈ ids).
Proof.
  cbv zeta. split.
  - rewrite reported_create_policy_version,
      reported_policy_version_manipulation, includes_decide,
      some_includes_decide, !bool_decide_eq_true.
    intros H. by left.
  - intros x Hx Hin. rewrite reported_passrole_any.
    by eapply reported_passrole_combination.
Qed.

Lemma statement_flags_check (st : value) (i : nat) (new : list SecurityFlag) :
  statement_flags st i = Ok new →
  new = []
  ∨ ∃ Action Resource,
      JS.get st "Effect" = Ok (VStr "Allow")
      ∧ JS.get st "Action" = Ok Action
      ∧ JS.get st "Resource" = Ok Resource
      ∧ new = check_statement (JS.filter_strings (actionsRaw_of Action))
                (resources_of Resource) i [].
Proof.
  unfold statement_flags, statement_callback. intros H. bind_inv H.
  destruct (JS.strict_equals a (VStr "Allow")) eqn:E; cbn [negb] in H.
  - apply strict_equals_string in E as ->. do 2 bind_inv H.
    injection H as <-. right. by exists a, a0.
  - injection H as <-. by left.
Qed.

(** X4.  Overlapping checks report together.  Whenever
    [create-policy-version] is reported for a statement, so is
    [policy-version-manipulation]; and whenever one of the six checks that
    combine [iam:PassRole] with other actions is reported for a statement,
    so is [passrole-any]. *)
Theorem overlapping_checks_report_together (p : value)
    (r : PolicyAnalysisResult) (i : nat) :
  analyzePolicy p = Ok r →
  let ids := map id (flags_for i (flags r)) in
  ("create-policy-version" ∈ ids → "policy-version-manipulation" ∈ ids)
  ∧ (∀ x, x ∈ passrole_combination_ids → x ∈ ids → "passrole-any" ∈ ids).
Proof.
  intros Hr. cbv zeta.
  destruct (flags_for_statement p r i Hr) as [->|[st Hst]].
  - split; [by intros ?%elem_of_nil | by intros x _ ?%elem_of_nil].
  - destruct (statement_flags_check _ _ _ Hst)
      as [->|(A & R & _ & _ & _ & ->)].
    + split; [by intros ?%elem_of_nil | by intros x _ ?%elem_of_nil].
    + apply check_statement_implications.
Qed.

Lemma overlapping_checks_report_together_witness :
  ∃ r, analyzePolicy scenario1 = Ok r
       ∧ "passrole-ec2" ∈ map id (flags_for 0 (flags r))
       ∧ "passrole-any" ∈ map id (flags_for 0 (flags r)).
Proof.
  eexists. split; [vm_compute; reflexivity|].
  assert ("passrole-ec2" ∈ map id (flags_for 0 (flags
            {| policyId := VStr "scenario1"; policyName := VStr "scenario1";
               flags := [flag "wildcard-resource" WILDCARD_RESOURCE 0;
                         flag "passrole-any" PASSROLE_ANY 0;
                         flag "passrole-ec2" PASSROLE_EC2 0];
               isHighRisk := true |}))) as Hin
    by (right; right; left).
  split; [exact Hin|].
  refine (proj2 (overlapping_checks_report_together scenario1 _ 0 _)
            "passrole-ec2" _ Hin); [vm_compute; reflexivity | left].
Defined.

(** ** What the findings of a statement depend on *)

Lemma check_statement_same_actions (actions actions' : list string)
    (resources : list value) (i : nat) :
  (∀ x, x ∈ actions ↔ x ∈ actions') →
  check_statement actions resources i []
  = check_statement actions' resources i [].
Proof.
  intros Hsame. apply (anti_symm sublist); apply check_statement_mono;
    intros x; apply Hsame.
Qed.

(** X5.  The findings of a statement depend on its [Action] only through
    the set of strings in it: two statements with the same [Effect] and
    [Resource] whose actions hold the same strings, in whatever order, with
    whatever repetitions and whatever non-string entries between them, get
    the same findings. *)
Theorem findings_depend_on_action_set (st st' : value) (i : nat)
    (Action Action' : value) :
  JS.get st' "Effect" = JS.get st "Effect" →
  JS.get st' "Resource" = JS.get st "Resource" →
  JS.get st "Action" = Ok Action →
  JS.get st' "Action" = Ok Action' →
  (∀ x, x ∈ JS.filter_strings (actionsRaw_of Action)
        ↔ x ∈ JS.filter_strings (actionsRaw_of Action')) →
  statement_flags st' i = statement_flags st i.
Proof.
  intros Heff Hres Hact Hact' Hsame.
  unfold statement_flags, statement_callback.
  rewrite Heff, Hres, Hact, Hact'.
  destruct (JS.get st "Effect") as [e|]; [|done]. cbn [mbind result_bind].
  destruct (negb _); [done|].
  destruct (JS.get st "Resource") as [res|]; [|done].
  cbn [mbind result_bind]. f_equal.
  apply check_statement_same_actions. intros x. by rewrite Hsame.
Qed.

Lemma findings_depend_on_action_set_witness :
  statement_flags
    (allow (VArr [VStr "ec2:RunInstances"; VNum 7; VStr "iam:PassRole";
                  VStr "ec2:RunInstances"]) (VStr "*")) 0
  = statement_flags passrole_and_run 0.
Proof.
  apply (findings_depend_on_action_set passrole_and_run _ 0
           (VArr [VStr "iam:PassRole"; VStr "ec2:RunInstances"])
           (VArr [VStr "ec2:RunInstances"; VNum 7; VStr "iam:PassRole";
                  VStr "ec2:RunInstances"]));
    [reflexivity | reflexivity | reflexivity | reflexivity |].
  intros x. cbn [actionsRaw_of JS.filter_strings].
  rewrite !elem_of_cons, elem_of_nil. tauto.
Defined.

(** X6.  An [Allow] statement whose [Action] holds no string (it is absent,
    as in a statement written with [NotAction], or is not a string, or is
    a list without strings) is reported for a wildcard resource and for
    nothing else. *)
Theorem no_action_only_wildcard_resource (st Action Resource : value)
    (i : nat) :
  JS.get st "Effect" = Ok (VStr "Allow") →
  JS.get st "Action" = Ok Action →
  JS.get st "Resource" = Ok Resource →
  JS.filter_strings (actionsRaw_of Action) = [] →
  statement_flags st i
  = Ok (if has_wildcard_resource Resource
        then [flag "wildcard-resource" WILDCARD_RESOURCE i] else []).
Proof.
  intros Heff Hact Hres Hnone.
  unfold statement_flags, statement_callback.
  rewrite Heff, Hact, Hres. cbn [mbind result_bind].
  change (negb _) with false. cbv iota. rewrite Hnone.
  unfold has_wildcard_resource.
  unfold check_statement. cbv zeta.
  by destruct (JS.some _ (resources_of Resource)).
Qed.

Lemma no_action_only_wildcard_resource_witness :
  statement_flags
    (obj [("Effect", VStr "Allow"); ("NotAction", VStr "iam:*");
          ("Resource", VStr "*")]) 3
  = Ok [flag "wildcard-resource" WILDCARD_RESOURCE 3].
Proof.
  apply (no_action_only_wildcard_resource _ VUndefined (VStr "*") 3);
    reflexivity.
Defined.

(** ** Which version is analyzed *)

Lemma Array_find_first (p : value) (pre post : list value) (v : value) :
  nullish p = false →
  Forall (λ w, nullish w = false ∧ is_default_version p w = false) pre →
  nullish v = false → is_default_version p v = true →
  JS.Array_find (λ v,
    VersionId ← JS.get v "VersionId";
    DefaultVersionId ← JS.get p "DefaultVersionId";
    Ok (JS.strict_equals VersionId DefaultVersionId)) (pre ++ v :: post)
  = Ok v.
Proof.
  intros Hp Hpre Hv Hdef. induction Hpre as [|w pre [Hw Hnot] _ IH].
  - cbn [app JS.Array_find]. rewrite find_predicate by done.
    cbn [mbind result_bind]. by rewrite Hdef.
  - cbn [app JS.Array_find]. rewrite IH. rewrite find_predicate by done.
    cbn [mbind result_bind]. by rewrite Hnot.
Qed.

Lemma Array_find_null (p : value) (pre post : list value) (w : value) :
  nullish p = false →
  Forall (λ w, nullish w = false ∧ is_default_version p w = false) pre →
  nullish w = true →
  JS.Array_find (λ v,
    VersionId ← JS.get v "VersionId";
    DefaultVersionId ← JS.get p "DefaultVersionId";
    Ok (JS.strict_equals VersionId DefaultVersionId)) (pre ++ w :: post)
  = Throw TypeError.
Proof.
  intros Hp Hpre Hw. induction Hpre as [|u pre [Hu Hnot] _ IH].
  - cbn [app JS.Array_find]. by destruct w.
  - cbn [app JS.Array_find]. rewrite IH. rewrite find_predicate by done.
    cbn [mbind result_bind]. by rewrite Hnot.
Qed.

(** X7.  [find] stops at the first version whose [VersionId] is strictly
    equal to [DefaultVersionId]: that version's [Document] is the one
    analyzed, and the entries after it are never read, whatever they are
    ([null] included). *)
Theorem first_default_version_wins (p : value) (pre post : list value)
    (v : value) :
  JS.get p "PolicyVersionList" = Ok (VArr (pre ++ v :: post)) →
  Forall (λ w, nullish w = false ∧ is_default_version p w = false) pre →
  nullish v = false → is_default_version p v = true →
  ∃ d, JS.get v "Document" = Ok d
       ∧ defaultDocument p
         = Ok (if JS.ToBoolean v && JS.ToBoolean d then Some d else None).
Proof.
  intros Hget Hpre Hv Hdef.
  pose proof (get_Ok_not_nullish _ _ _ Hget) as Hp.
  exists (default VUndefined (JS.own_property v "Document")).
  split; [by apply get_not_nullish|].
  unfold defaultDocument. rewrite (bind_Ok _ _ _ Hget). cbn [JS.call_find].
  rewrite Array_find_first by done. cbn [mbind result_bind].
  destruct (JS.ToBoolean v); cbn [negb andb]; [|done].
  rewrite (get_not_nullish v) by done. cbn [mbind result_bind].
  by destruct (JS.ToBoolean (default _ _)).
Qed.

Lemma first_default_version_wins_witness :
  ∃ d, JS.get (obj [("VersionId", VStr "v1"); ("Document", obj [])])
         "Document" = Ok d
       ∧ defaultDocument
           (obj [("DefaultVersionId", VStr "v1");
                 ("PolicyVersionList",
                   VArr [obj [("VersionId", VStr "v0")];
                         obj [("VersionId", VStr "v1"); ("Document", obj [])];
                         VNull;
                         obj [("VersionId", VStr "v1");
                              ("Document", VStr "later")]])])
         = Ok (if JS.ToBoolean
                    (obj [("VersionId", VStr "v1"); ("Document", obj [])])
                  && JS.ToBoolean d then Some d else None).
Proof.
  apply (first_default_version_wins _ [obj [("VersionId", VStr "v0")]]
           [VNull; obj [("VersionId", VStr "v1"); ("Document", VStr "later")]]).
  - reflexivity.
  - repeat constructor.
  - reflexivity.
  - reflexivity.
Defined.

(** X8.  A [null] entry of [PolicyVersionList] that [find] reaches, that
    is, one with no default version before it, makes [analyzePolicy] throw a
    [TypeError]. *)
Theorem null_version_before_default_throws (p : value)
    (pre post : list value) (w : value) :
  JS.get p "PolicyVersionList" = Ok (VArr (pre ++ w :: post)) →
  Forall (λ w, nullish w = false ∧ is_default_version p w = false) pre →
  nullish w = true →
  analyzePolicy p = Throw TypeError.
Proof.
  intros Hget Hpre Hw.
  pose proof (get_Ok_not_nullish _ _ _ Hget) as Hp.
  unfold analyzePolicy, defaultDocument.
  rewrite (bind_Ok _ _ _ Hget). cbn [JS.call_find].
  by rewrite Array_find_null.
Qed.

Lemma null_version_before_default_throws_witness :
  analyzePolicy
    (obj [("DefaultVersionId", VStr "v1");
          ("PolicyVersionList",
            VArr [obj [("VersionId", VStr "v0")]; VNull;
                  obj [("VersionId", VStr "v1"); ("Document", obj [])]])])
  = Throw TypeError.
Proof.
  apply (null_version_before_default_throws _ [obj [("VersionId", VStr "v0")]]
           [obj [("VersionId", VStr "v1"); ("Document", obj [])]] VNull).
  - reflexivity.
  - repeat constructor.
  - reflexivity.
Defined.

(** ** Batches *)

Lemma analyzePolicy_identity (p : value) (r : PolicyAnalysisResult) :
  analyzePolicy p = Ok r →
  JS.get p "PolicyId" = Ok (policyId r)
  ∧ JS.get p "PolicyName" = Ok (policyName r).
Proof.
  unfold analyzePolicy. intros H. bind_inv H.
  destruct a as [d|].
  - do 4 bind_inv H. injection H as <-. done.
  - do 2 bind_inv H. injection H as <-. done.
Qed.

Lemma analyzeAllPolicies_Forall2 (policies : list (string * value))
    (results : list PolicyAnalysisResult) :
  analyzeAllPolicies policies = Ok results →
  Forall2 (λ entry r,
             analyzePolicy entry.2 = Ok r
             ∧ JS.get entry.2 "PolicyId" = Ok (policyId r)
             ∧ JS.get entry.2 "PolicyName" = Ok (policyName r))
    policies results.
Proof.
  intros H%Array_map_Forall2. unfold Object_values in H.
  change (map snd policies) with (snd <$> policies) in H.
  apply Forall2_fmap_l in H.
  eapply Forall2_impl; [exact H|]. intros [k p] r Hr. simpl in *.
  split; [done|]. by apply analyzePolicy_identity.
Qed.

(** X9.  [analyzeAllPolicies] returns one result per policy of the
    collection, in the order of [Object.values]: the result at position [k]
    is the analysis of the policy at position [k] and carries that policy's
    [PolicyId] and [PolicyName]. *)
Theorem analyzeAllPolicies_positional (policies : list (string * value))
    (results : list PolicyAnalysisResult) :
  analyzeAllPolicies policies = Ok results →
  Forall2 (λ entry r,
             analyzePolicy entry.2 = Ok r
             ∧ JS.get entry.2 "PolicyId" = Ok (policyId r)
             ∧ JS.get entry.2 "PolicyName" = Ok (policyName r))
    policies results.
Proof. apply analyzeAllPolicies_Forall2. Qed.

Lemma analyzeAllPolicies_positional_witness :
  ∃ results,
    analyzeAllPolicies scenario6 = Ok results
    ∧ map policyId results
      = [VStr "scenario4"; VStr "scenario3"; VStr "scenario2"]
    ∧ Forall2 (λ entry r,
                 analyzePolicy entry.2 = Ok r
                 ∧ JS.get entry.2 "PolicyId" = Ok (policyId r)
                 ∧ JS.get entry.2 "PolicyName" = Ok (policyName r))
        scenario6 results.
Proof.
  eexists. split; [vm_compute; reflexivity|]. split; [reflexivity|].
  apply (analyzeAllPolicies_positional scenario6). vm_compute. reflexivity.
Defined.

Lemma Array_map_Throw {A B : Type} (f : A → result B) (l : list A) :
  Exists (λ x, f x = Throw TypeError) l → JS.Array_map f l = Throw TypeError.
Proof.
  induction 1 as [x l Hx|x l _ IH]; simpl.
  - by rewrite Hx.
  - destruct (f x) as [b|[]]; [|done]. cbn [mbind result_bind].
    by rewrite IH.
Qed.

Lemma Array_map_Ok {A B : Type} (f : A → result B) (l : list A) :
  Forall (λ x, ∃ b, f x = Ok b) l → ∃ bs, JS.Array_map f l = Ok bs.
Proof.
  induction 1 as [|x l [b Hb] _ [bs IH]]; simpl; [eauto|].
  rewrite Hb, IH. cbn [mbind result_bind]. eauto.
Qed.

(** X10.  A batch is analyzed completely or not at all.  When the analysis
    of one policy of the collection throws, [analyzeAllPolicies],
    [getHighRiskPolicies] and [getSecuritySummary] all throw, whatever the
    other policies are; when every policy can be analyzed, all three
    return. *)
Theorem batch_all_or_nothing (policies : list (string * value)) :
  (Exists (λ entry, analyzePolicy entry.2 = Throw TypeError) policies →
   analyzeAllPolicies policies = Throw TypeError
   ∧ getHighRiskPolicies policies = Throw TypeError
   ∧ getSecuritySummary policies = Throw TypeError)
  ∧ (Forall (λ entry, ∃ r, analyzePolicy entry.2 = Ok r) policies →
     ∃ results high summary,
       analyzeAllPolicies policies = Ok results
       ∧ getHighRiskPolicies policies = Ok high
       ∧ getSecuritySummary policies = Ok summary).
Proof.
  split.
  - intros H.
    assert (analyzeAllPolicies policies = Throw TypeError) as Hall.
    { apply Array_map_Throw. unfold Object_values.
      change (map snd policies) with (snd <$> policies).
      by apply Exists_fmap. }
    unfold getHighRiskPolicies, getSecuritySummary. by rewrite Hall.
  - intros H.
    destruct (Array_map_Ok analyzePolicy (Object_values policies))
      as [results Hall].
    { unfold Object_values. change (map snd policies) with (snd <$> policies).
      by apply Forall_fmap. }
    unfold getHighRiskPolicies, getSecuritySummary.
    fold (analyzeAllPolicies policies) in Hall. rewrite Hall.
    cbn [mbind result_bind]. by eexists _, _, _.
Qed.

Lemma batch_all_or_nothing_witness :
  getSecuritySummary (scenario6 ++ [("broken", null_statement)])
  = Throw TypeError
  ∧ ∃ summary, getSecuritySummary scenario6 = Ok summary.
Proof.
  split.
  - apply (proj1 (batch_all_or_nothing _)).
    do 3 apply Exists_cons_tl. apply Exists_cons_hd. reflexivity.
  - destruct (proj2 (batch_all_or_nothing scenario6))
      as (results & high & summary & _ & _ & Hs).
    + repeat constructor; eexists; vm_compute; reflexivity.
    + by exists summary.
Defined.

(** * The policy details page *)

Lemma defaultDocument_inv (p : value) (found : option value) :
  defaultDocument p = Ok found →
  ∃ versions dv,
    JS.get p "PolicyVersionList" = Ok (VArr versions)
    ∧ PolicyDetailsPage.defaultVersion p = Ok dv
    ∧ ((JS.ToBoolean dv = false ∧ found = None)
       ∨ (JS.ToBoolean dv = true
          ∧ ∃ d, JS.get dv "Document" = Ok d
                 ∧ found = if JS.ToBoolean d then Some d else None)).
Proof.
  unfold defaultDocument, PolicyDetailsPage.defaultVersion. intros H.
  bind_inv H. rename a into PVL. rewrite (bind_Ok _ _ _ Ha).
  destruct PVL as [| | | | |versions|]; try discriminate.
  cbn [JS.call_find PolicyDetailsPage.optional_find] in *.
  bind_inv H. rename a into dv. exists versions, dv.
  split; [done|]. split; [done|].
  destruct (JS.ToBoolean dv) eqn:Hdv; cbn [negb] in H.
  - right. split; [done|]. bind_inv H. exists a. split; [done|].
    destruct (JS.ToBoolean a); cbn [negb] in H; by injection H as <-.
  - left. by injection H as <-.
Qed.

(** X11.  Whenever the analyzer finds its way to a default document, the
    page displays that same document; and when the analyzer takes its
    early return, the page displays [null]. *)
Theorem page_document_is_analyzed_document (p : value)
    (found : option value) :
  defaultDocument p = Ok found →
  PolicyDetailsPage.document p = Ok (default VNull found).
Proof.
  intros (versions & dv & _ & Hdv & Hcases)%defaultDocument_inv.
  unfold PolicyDetailsPage.document. rewrite Hdv. cbn [mbind result_bind].
  destruct Hcases as [[Hfalsy ->]|(Htruthy & d & Hd & ->)].
  - destruct dv; try discriminate; try done.
  - assert (PolicyDetailsPage.optional_get dv "Document" = Ok d) as ->
      by (by destruct dv).
    cbn [mbind result_bind]. by destruct (JS.ToBoolean d).
Qed.

Lemma page_document_is_analyzed_document_witness :
  PolicyDetailsPage.document scenario1
  = Ok (obj [("Statement", VArr [passrole_and_run])])
  ∧ PolicyDetailsPage.document no_default_version = Ok VNull.
Proof.
  split.
  - apply (page_document_is_analyzed_document scenario1
             (Some (obj [("Statement", VArr [passrole_and_run])]))).
    reflexivity.
  - apply (page_document_is_analyzed_document no_default_version None).
    reflexivity.
Defined.





(** * The dashboard *)

Import DashboardPage.

Lemma rowIsHighRisk_true (results : list PolicyAnalysisResult) (key : string) :
  rowIsHighRisk results key = true
  ↔ ∃ a, a ∈ results ∧ policyId a = VStr key ∧ isHighRisk a = true.
Proof.
  unfold rowIsHighRisk, JS.some. rewrite existsb_exists. split.
  - intros (a & Hin & [Hid Hhigh]%andb_true_iff). exists a.
    split; [by apply list_elem_of_In|]. split; [|done].
    by apply strict_equals_string.
  - intros (a & Hin & Hid & Hhigh). exists a.
    split; [by apply list_elem_of_In|]. apply andb_true_iff. split; [|done].
    by apply strict_equals_string.
Qed.

(** X14.  On a collection whose keys are the policies' own [PolicyId]s,
    the dashboard highlights the row of a policy exactly when the analysis
    of that policy is high-risk.  On a collection keyed otherwise, a row
    whose key is no policy's [PolicyId] is never highlighted. *)
Theorem row_highlight_is_policy_verdict (policies : list (string * value))
    (results : list PolicyAnalysisResult) :
  analyzeAllPolicies policies = Ok results →
  (NoDup policies.*1 →
   Forall (λ entry, JS.get entry.2 "PolicyId" = Ok (VStr entry.1)) policies →
   ∀ key policy, (key, policy) ∈ policies →
     ∃ r, analyzePolicy policy = Ok r
          ∧ rowIsHighRisk results key = isHighRisk r)
  ∧ (∀ key,
       Forall (λ entry, JS.get entry.2 "PolicyId" ≠ Ok (VStr key)) policies →
       rowIsHighRisk results key = false).
Proof.
  intros Hall. pose proof (analyzeAllPolicies_Forall2 _ _ Hall) as Hpos.
  assert (∀ a, a ∈ results →
            ∃ entry, entry ∈ policies ∧ analyzePolicy entry.2 = Ok a
                     ∧ JS.get entry.2 "PolicyId" = Ok (policyId a)) as Hback.
  { intros a (k & Hk)%list_elem_of_lookup.
    destruct (Forall2_lookup_r _ _ _ _ _ Hpos Hk) as (entry & He & Ha & Hid & _).
    exists entry. split; [|done]. apply list_elem_of_lookup. eauto. }
  split.
  - intros Hnodup Hkeyed key policy Hin.
    apply list_elem_of_lookup in Hin as [k Hk].
    destruct (Forall2_lookup_l _ _ _ _ _ Hpos Hk) as (r & Hr & Hpr & Hid & _).
    simpl in *. exists r. split; [done|].
    rewrite Forall_forall in Hkeyed.
    destruct (isHighRisk r) eqn:Hhigh.
    + apply rowIsHighRisk_true. exists r.
      split; [apply list_elem_of_lookup; eauto|]. split; [|done].
      specialize (Hkeyed (key, policy)). simpl in Hkeyed.
      rewrite Hkeyed in Hid by (apply list_elem_of_lookup; eauto).
      by injection Hid.
    + apply not_true_iff_false.
      intros (a & Ha & Haid & Hahigh)%rowIsHighRisk_true.
      destruct (Hback a Ha) as ([key' policy'] & Hin' & Hana & Hid').
      simpl in *. pose proof (Hkeyed _ Hin') as Hk'. simpl in Hk'.
      rewrite Hk', Haid in Hid'. injection Hid' as ->.
      assert (policy' = policy) as ->.
      { apply list_elem_of_lookup in Hin' as [k' Hk''].
        assert (k' = k) as ->.
        { eapply NoDup_lookup; [exact Hnodup| |].
          - by rewrite list_lookup_fmap, Hk''.
          - by rewrite list_lookup_fmap, Hk. }
        rewrite Hk in Hk''. by injection Hk''. }
      rewrite Hpr in Hana. injection Hana as ->. congruence.
  - intros key Hnone. apply not_true_iff_false.
    intros (a & Ha & Haid & _)%rowIsHighRisk_true.
    destruct (Hback a Ha) as (entry & Hin & _ & Hid).
    rewrite Forall_forall in Hnone. apply (Hnone entry Hin). by rewrite Hid, Haid.
Qed.

Lemma row_highlight_is_policy_verdict_witness :
  ∃ results,
    analyzeAllPolicies scenario6 = Ok results
    ∧ (∃ r, analyzePolicy scenario4 = Ok r
            ∧ rowIsHighRisk results "scenario4" = isHighRisk r)
    ∧ rowIsHighRisk results "arn:aws:iam::aws:policy/scenario4" = false.
Proof.
  eexists. split; [vm_compute; reflexivity|].
  edestruct (row_highlight_is_policy_verdict scenario6) as [Hkeyed Hother];
    [vm_compute; reflexivity|].
  split.
  - apply (Hkeyed ltac:(apply (bool_decide_unpack _); by vm_compute)
             ltac:(repeat constructor) "scenario4" scenario4). left.
  - apply Hother. repeat constructor; by vm_compute.
Defined.

(** ** Categories *)

Lemma prefix_cons (a b : ascii) (s1 s2 : string) :
  String.prefix (String a s1) (String b s2) = true
  ↔ a = b ∧ String.prefix s1 s2 = true.
Proof.
  simpl. destruct (Ascii.ascii_dec a b) as [->|Hne]; [tauto|].
  split; [discriminate | intros [? _]; done].
Qed.

Lemma prefix_trans (b a s : string) :
  String.prefix b a = true → String.prefix a s = true →
  String.prefix b s = true.
Proof.
  revert b a. induction s as [|c s IH]; intros b a Hba Has.
  - destruct a; [|discriminate]. by destruct b.
  - destruct a as [|ca a]; [by destruct b|].
    destruct b as [|cb b]; [done|].
    apply prefix_cons in Hba as [-> Hba]. apply prefix_cons in Has as [-> Has].
    apply prefix_cons. eauto.
Qed.

Lemma includes_of_prefix (s b : string) :
  String.prefix b s = true → String_includes s b = true.
Proof. intros H. destruct s; cbn [String_includes]; by rewrite H. Qed.

Lemma includes_prefix (b a s : string) :
  String_includes a b = true → String.prefix a s = true →
  String_includes s b = true.
Proof.
  revert s. induction a as [|c a IH]; intros s Hab Has;
    cbn [String_includes] in Hab; apply orb_true_iff in Hab as [Hab|Hab].
  - by eapply includes_of_prefix, prefix_trans.
  - discriminate.
  - by eapply includes_of_prefix, prefix_trans.
  - destruct s as [|cs s]; [discriminate|].
    apply prefix_cons in Has as [-> Has].
    cbn [String_includes]. apply orb_true_iff. right. by apply IH.
Qed.

Lemma includes_trans (s a b : string) :
  String_includes s a = true → String_includes a b = true →
  String_includes s b = true.
Proof.
  intros Hsa Hab. induction s as [|c s IH];
    cbn [String_includes] in Hsa; apply orb_true_iff in Hsa as [Hsa|Hsa].
  - by eapply includes_prefix.
  - discriminate.
  - by eapply includes_prefix.
  - cbn [String_includes]. apply orb_true_iff. right. by apply IH.
Qed.

(** The conditions of [categorizePolicies] exclude one another: an ARN the
    second accepts is not one the first accepts. *)
Lemma managed_not_service_role (arn : string) :
  managed_policy_arn arn = true → service_role_policy_arn arn = false.
Proof.
  unfold managed_policy_arn, service_role_policy_arn.
  intros [[_ Haws%negb_true_iff]%andb_true_iff Hsr%negb_true_iff]%andb_true_iff.
  apply orb_false_iff. split; apply not_true_iff_false; intros H.
  - apply not_true_iff_false in Haws. apply Haws.
    eapply includes_trans; [exact H|]. by vm_compute.
  - apply not_true_iff_false in Hsr. apply Hsr.
    eapply includes_trans; [exact H|]. by vm_compute.
Qed.

Lemma forEach_entry_app {St : Type} (cb : string * value → St → result St)
    (l1 l2 : list (string * value)) (s : St) :
  forEach_entry cb (l1 ++ l2) s
  = forEach_entry cb l1 s ≫= forEach_entry cb l2.
Proof.
  revert s. induction l1 as [|e l1 IH]; intros s; simpl; [done|].
  destruct (cb e s) as [s'|]; [|done]. cbn [mbind result_bind]. apply IH.
Qed.

Lemma forEach_entry_snoc {St : Type} (cb : string * value → St → result St)
    (l : list (string * value)) (e : string * value) (s : St) :
  forEach_entry cb (l ++ [e]) s = forEach_entry cb l s ≫= cb e.
Proof.
  revert s. induction l as [|x l IH]; intros s; simpl.
  - by destruct (cb e s).
  - destruct (cb x s) as [s'|]; [|done]. cbn [mbind result_bind]. apply IH.
Qed.

Lemma call_includes_arn (entry : string * value) (arn search : string) :
  arn_of entry = Some arn →
  JS.get entry.2 "Arn" = Ok (VStr arn)
  ∧ call_includes (VStr arn) search = Ok (String_includes arn search).
Proof.
  unfold arn_of. destruct entry as [k [| | | | | |props]]; try done.
  simpl. destruct (props !! "Arn") as [[]|]; try done. by intros [= ->].
Qed.

Lemma categorizePolicies_filters (policies : list (string * value)) :
  Forall (λ entry, is_Some (arn_of entry)) policies →
  categorizePolicies policies
  = Ok {| userPolicies :=
            List.filter (λ e, negb (has_arn service_role_policy_arn e)
                              && negb (has_arn managed_policy_arn e)) policies;
          serviceRolePolicies :=
            List.filter (has_arn service_role_policy_arn) policies;
          managedPolicies :=
            List.filter (has_arn managed_policy_arn) policies |}.
Proof.
  intros Hall. unfold categorizePolicies.
  induction policies as [|e policies IH] using rev_ind; [done|].
  apply Forall_app in Hall as [Hall [[arn He] _]%Forall_cons].
  rewrite forEach_entry_snoc, IH by done. cbn [mbind result_bind].
  rewrite !List.filter_app. cbn [List.filter].
  unfold has_arn. rewrite He.
  destruct (call_includes_arn e arn "" He) as [Hget _].
  destruct e as [k p]. simpl in Hget. rewrite Hget.
  cbn [mbind result_bind call_includes or_else and_then negate].
  pose proof (managed_not_service_role arn) as Hexcl.
  unfold service_role_policy_arn, managed_policy_arn in *.
  destruct (String_includes arn "::aws:policy/aws-service-role/");
    cbn [mbind result_bind orb negb andb].
  - destruct (String_includes arn "::aws:policy/" && _ && _) eqn:E.
    + by specialize (Hexcl eq_refl).
    + by rewrite !app_nil_r.
  - destruct (String_includes arn ":policy/service-role/");
      cbn [mbind result_bind orb negb andb].
    + destruct (String_includes arn "::aws:policy/" && _ && _) eqn:E.
      * by specialize (Hexcl eq_refl).
      * by rewrite !app_nil_r.
    + destruct (String_includes arn "::aws:policy/");
        cbn [mbind result_bind orb negb andb]; [|by rewrite !app_nil_r].
      destruct (String_includes arn "/aws-service-role/");
        cbn [mbind result_bind orb negb andb]; [by rewrite !app_nil_r|].
      destruct (String_includes arn "/service-role/");
        cbn [mbind result_bind orb negb andb]; by rewrite !app_nil_r.
Qed.

(** X15.  On policies whose [Arn] is a string, [categorizePolicies] sorts
    every entry into exactly one list and keeps the order of the entries:
    the service-role list holds the entries whose ARN contains
    [::aws:policy/aws-service-role/] or [:policy/service-role/], the managed
    list those whose ARN contains [::aws:policy/] but neither
    [/aws-service-role/] nor [/service-role/], the user list all others.
    The two conditions exclude one another, so the order in which the code
    tests them does not matter. *)
Theorem categorizePolicies_by_arn (policies : list (string * value)) :
  Forall (λ entry, is_Some (arn_of entry)) policies →
  categorizePolicies policies
  = Ok {| userPolicies :=
            List.filter (λ e, negb (has_arn service_role_policy_arn e)
                              && negb (has_arn managed_policy_arn e)) policies;
          serviceRolePolicies :=
            List.filter (has_arn service_role_policy_arn) policies;
          managedPolicies :=
            List.filter (has_arn managed_policy_arn) policies |}
  ∧ ∀ e, has_arn managed_policy_arn e = true →
         has_arn service_role_policy_arn e = false.
Proof.
  intros Hall. split; [by apply categorizePolicies_filters|].
  intros e. unfold has_arn. destruct (arn_of e); [|done].
  apply managed_not_service_role.
Qed.

Lemma categorizePolicies_by_arn_witness :
  ∃ c, categorizePolicies some_policies = Ok c
       ∧ (userPolicies c).*1 = ["a"; "e"]
       ∧ (serviceRolePolicies c).*1 = ["b"; "d"]
       ∧ (managedPolicies c).*1 = ["c"].
Proof.
  eexists. split.
  - apply (proj1 (categorizePolicies_by_arn some_policies
                    ltac:(repeat constructor; by eexists))).
  - by vm_compute.
Defined.

Lemma categorizeRoles_filters (roles : list (string * value)) :
  Forall (λ entry, is_Some (arn_of entry)) roles →
  categorizeRoles roles
  = Ok {| userRoles :=
            List.filter (λ e, negb (has_arn service_role_arn e)) roles;
          serviceRoles := List.filter (has_arn service_role_arn) roles |}.
Proof.
  intros Hall. unfold categorizeRoles.
  induction roles as [|e roles IH] using rev_ind; [done|].
  apply Forall_app in Hall as [Hall [[arn He] _]%Forall_cons].
  rewrite forEach_entry_snoc, IH by done. cbn [mbind result_bind].
  rewrite !List.filter_app. cbn [List.filter].
  unfold has_arn. rewrite He.
  destruct (call_includes_arn e arn "" He) as [Hget _].
  destruct e as [k p]. simpl in Hget. rewrite Hget.
  cbn [mbind result_bind call_includes]. unfold service_role_arn.
  destruct (String_includes arn "/aws-service-role/");
    cbn [negb]; by rewrite !app_nil_r.
Qed.

(** X16.  On roles whose [Arn] is a string, [categorizeRoles] puts the
    roles whose ARN contains [/aws-service-role/] into [serviceRoles] and
    all others into [userRoles], each list in the order of the entries. *)
Theorem categorizeRoles_by_arn (roles : list (string * value)) :
  Forall (λ entry, is_Some (arn_of entry)) roles →
  categorizeRoles roles
  = Ok {| userRoles :=
            List.filter (λ e, negb (has_arn service_role_arn e)) roles;
          serviceRoles := List.filter (has_arn service_role_arn) roles |}.
Proof. apply categorizeRoles_filters. Qed.

Lemma categorizeRoles_by_arn_witness :
  ∃ c, categorizeRoles some_roles = Ok c
       ∧ (userRoles c).*1 = ["r2"] ∧ (serviceRoles c).*1 = ["r1"].
Proof.
  eexists. split.
  - apply (categorizeRoles_by_arn some_roles
             ltac:(repeat constructor; by eexists)).
  - by vm_compute.
Defined.

Lemma categorize_policy_step (e : string * value)
    (acc c : PolicyCategories) (cb : string * value → PolicyCategories
                                      → result PolicyCategories) :
  cb = (λ '(policyId, policy) acc,
    Arn ← JS.get policy "Arn";
    serviceRole ← or_else (call_includes Arn "::aws:policy/aws-service-role/")
                          (call_includes Arn ":policy/service-role/");
    if serviceRole : bool then
      Ok {| userPolicies := userPolicies acc;
            serviceRolePolicies :=
              serviceRolePolicies acc ++ [(policyId, policy)];
            managedPolicies := managedPolicies acc |}
    else
      managed ← and_then
                  (and_then (call_includes Arn "::aws:policy/")
                            (negate (call_includes Arn "/aws-service-role/")))
                  (negate (call_includes Arn "/service-role/"));
      if managed : bool then
        Ok {| userPolicies := userPolicies acc;
              serviceRolePolicies := serviceRolePolicies acc;
              managedPolicies := managedPolicies acc ++ [(policyId, policy)] |}
      else
        Ok {| userPolicies := userPolicies acc ++ [(policyId, policy)];
              serviceRolePolicies := serviceRolePolicies acc;
              managedPolicies := managedPolicies acc |}) →
  cb e acc = Ok c →
  (userPolicies c = userPolicies acc ++ [e]
   ∧ serviceRolePolicies c = serviceRolePolicies acc
   ∧ managedPolicies c = managedPolicies acc)
  ∨ (userPolicies c = userPolicies acc
     ∧ serviceRolePolicies c = serviceRolePolicies acc ++ [e]
     ∧ managedPolicies c = managedPolicies acc)
  ∨ (userPolicies c = userPolicies acc
     ∧ serviceRolePolicies c = serviceRolePolicies acc
     ∧ managedPolicies c = managedPolicies acc ++ [e]).
Proof.
  intros -> H. destruct e as [k p]. do 2 bind_inv H.
  destruct a0.
  - injection H as <-. right. by left.
  - bind_inv H. destruct a0; injection H as <-; [right; by right | by left].
Qed.

(** X17.  Whenever [categorizePolicies] returns, its three lists partition
    the entries: each list is a subsequence of the entries, and together
    they hold every entry exactly once. *)
Theorem categorizePolicies_partition (policies : list (string * value))
    (c : PolicyCategories) :
  categorizePolicies policies = Ok c →
  userPolicies c `sublist_of` policies
  ∧ serviceRolePolicies c `sublist_of` policies
  ∧ managedPolicies c `sublist_of` policies
  ∧ userPolicies c ++ serviceRolePolicies c ++ managedPolicies c ≡ₚ policies.
Proof.
  unfold categorizePolicies. revert c.
  induction policies as [|e policies IH] using rev_ind; intros c H.
  - injection H as <-. by simpl.
  - rewrite forEach_entry_snoc in H. bind_inv H.
    destruct (IH _ Ha) as (Hu & Hs & Hm & Hperm).
    apply (categorize_policy_step e a c _ eq_refl) in H
      as [(-> & -> & ->)|[(-> & -> & ->)|(-> & -> & ->)]].
    + split; [by apply sublist_app|]. split; [by apply sublist_inserts_r|].
      split; [by apply sublist_inserts_r|].
      rewrite <- Hperm. rewrite <- !(assoc_L (++)).
      apply Permutation_app_head. rewrite (comm (++) [e]).
      by rewrite <- !(assoc_L (++)).
    + split; [by apply sublist_inserts_r|]. split; [by apply sublist_app|].
      split; [by apply sublist_inserts_r|].
      rewrite <- Hperm. rewrite <- !(assoc_L (++)).
      do 2 apply Permutation_app_head. apply (comm (++)).
    + split; [by apply sublist_inserts_r|]. split; [by apply sublist_inserts_r|].
      split; [by apply sublist_app|].
      rewrite <- Hperm. by rewrite <- !(assoc_L (++)).
Qed.

Lemma categorizePolicies_partition_witness :
  ∃ c, categorizePolicies some_policies = Ok c
       ∧ userPolicies c ++ serviceRolePolicies c ++ managedPolicies c
         ≡ₚ some_policies.
Proof.
  eexists. split; [vm_compute; reflexivity|].
  apply (categorizePolicies_partition some_policies). vm_compute. reflexivity.
Defined.

(** X18.  Both categorizers read [Arn] without a guard: the first entry
    whose [Arn] has no [includes] to call (it is absent, [null], a number, a
    boolean or an object) makes them throw a [TypeError], and no categories
    are returned. *)
Theorem categorizers_throw_on_missing_arn (pre post : list (string * value))
    (e : string * value) :
  Forall (λ entry, is_Some (arn_of entry)) pre →
  arn_not_searchable e.2 = true →
  categorizePolicies (pre ++ e :: post) = Throw TypeError
  ∧ categorizeRoles (pre ++ e :: post) = Throw TypeError.
Proof.
  intros Hpre He. split.
  - unfold categorizePolicies.
    rewrite (cons_middle e pre post), (assoc_L (++)), forEach_entry_app.
    rewrite forEach_entry_snoc.
    pose proof (categorizePolicies_filters pre Hpre) as Hok.
    unfold categorizePolicies in Hok. rewrite Hok. cbn [mbind result_bind].
    destruct e as [k p]. unfold arn_not_searchable in He. simpl in He.
    destruct (JS.get p "Arn") as [[]|[]]; try discriminate; done.
  - unfold categorizeRoles.
    rewrite (cons_middle e pre post), (assoc_L (++)), forEach_entry_app.
    rewrite forEach_entry_snoc.
    pose proof (categorizeRoles_filters pre Hpre) as Hok.
    unfold categorizeRoles in Hok. rewrite Hok. cbn [mbind result_bind].
    destruct e as [k p]. unfold arn_not_searchable in He. simpl in He.
    destruct (JS.get p "Arn") as [[]|[]]; try discriminate; done.
Qed.

Lemma categorizers_throw_on_missing_arn_witness :
  categorizePolicies (some_policies ++ [("scenario1", scenario1)])
  = Throw TypeError
  ∧ categorizeRoles (some_policies ++ [("scenario1", scenario1)])
    = Throw TypeError.
Proof.
  apply (categorizers_throw_on_missing_arn some_policies []
           ("scenario1", scenario1)).
  - repeat constructor; by eexists.
  - reflexivity.
Defined.

(** * The security report *)

Lemma reduce_count_app (P : SecurityFlag → bool)
    (results : list PolicyAnalysisResult) :
  fold_left (λ sum p, sum + length (List.filter P (flags p))) results 0
  = length (List.filter P (concat (map flags results))).
Proof.
  rewrite reduce_sum, Nat.add_0_l, <- List.concat_filter_map,
    <- sum_list_lengths, !map_map. done.
Qed.

Lemma severity_partition (fl : list SecurityFlag) :
  length fl
  = length (List.filter (λ f, bool_decide (severity f = HIGH)) fl)
    + length (List.filter (λ f, bool_decide (severity f = MEDIUM)) fl)
    + length (List.filter (λ f, bool_decide (severity f = LOW)) fl).
Proof.
  induction fl as [|f fl IH]; [done|]. cbn [List.filter length].
  destruct (severity f); simpl; lia.
Qed.

Lemma report_counts_sum (results : list PolicyAnalysisResult) :
  SecurityReport.totalFlags (SecurityReport.counts results)
  = SecurityReport.highSeverityFlags (SecurityReport.counts results)
    + SecurityReport.mediumSeverityFlags (SecurityReport.counts results)
    + SecurityReport.lowSeverityFlags (SecurityReport.counts results).
Proof.
  unfold SecurityReport.counts. simpl.
  rewrite !reduce_count_app, reduce_sum, Nat.add_0_l.
  rewrite <- (map_map flags length), sum_list_lengths.
  apply severity_partition.
Qed.

(** X19.  The severity counts of the report add up: the total number of
    flags is the sum of the [HIGH], [MEDIUM] and [LOW] counts, whatever
    results the component is given. *)
Theorem report_counts_add_up (analysisResults : list PolicyAnalysisResult) :
  let c := SecurityReport.counts analysisResults in
  SecurityReport.totalFlags c
  = SecurityReport.highSeverityFlags c
    + SecurityReport.mediumSeverityFlags c
    + SecurityReport.lowSeverityFlags c.
Proof. apply report_counts_sum. Qed.

(** X20.  Fed with the results of [analyzeAllPolicies], the report shows
    the numbers of [getSecuritySummary] for the same policies, and its
    [LOW] count is zero. *)
Theorem report_counts_of_analysis (policies : list (string * value))
    (results : list PolicyAnalysisResult) (summary : SecuritySummary) :
  analyzeAllPolicies policies = Ok results →
  getSecuritySummary policies = Ok summary →
  let c := SecurityReport.counts results in
  length (SecurityReport.highRiskPolicies c) = highRiskPolicies summary
  ∧ SecurityReport.totalFlags c = totalSecurityFlags summary
  ∧ SecurityReport.highSeverityFlags c = highSeverityFlags summary
  ∧ SecurityReport.lowSeverityFlags c = 0
  ∧ SecurityReport.totalFlags c
    = SecurityReport.highSeverityFlags c + SecurityReport.mediumSeverityFlags c.
Proof.
  intros Hall Hsum. cbv zeta.
  unfold getSecuritySummary in Hsum. rewrite Hall in Hsum.
  cbn [mbind result_bind] in Hsum. injection Hsum as <-.
  assert (SecurityReport.lowSeverityFlags (SecurityReport.counts results) = 0)
    as Hlow.
  { unfold SecurityReport.counts. simpl. rewrite reduce_count_app.
    destruct (List.filter _ _) as [|f rest] eqn:E; [done|]. exfalso.
    assert (In f (List.filter (λ f, bool_decide (severity f = LOW))
                    (concat (map flags results)))) as Hin
      by (rewrite E; by left).
    apply filter_In in Hin as [Hin Hsev%bool_decide_eq_true_1].
    apply in_concat in Hin as (fl & Hfl & Hf).
    apply in_map_iff in Hfl as (r & <- & Hr).
    destruct (analyzeAllPolicies_results _ _ Hall) as [_ Hfrom].
    rewrite Forall_forall in Hfrom.
    destruct (Hfrom r) as [p Hp]; [by apply list_elem_of_In|].
    apply analyzePolicy_Ok_inv in Hp as (sts & per & _ & Hper & Hflags & _).
    rewrite Hflags in Hf. apply list_elem_of_In in Hf.
    destruct (per_statement_flags_elem _ _ _ _ Hper Hf)
      as (k & st & new & _ & Hnew & Hnewin).
    apply statement_flags_every_flag in Hnew.
    pose proof (elem_of_sublist _ _ _ Hnewin Hnew) as Hevery.
    pose proof (every_flag_severity (0 + k)) as Hall'.
    rewrite Forall_forall in Hall'. specialize (Hall' f Hevery).
    rewrite Hsev in Hall'. by destruct (bool_decide _). }
  split; [done|]. split; [done|]. split; [done|]. split; [done|].
  pose proof (report_counts_sum results) as Hsum. lia.
Qed.

Lemma report_counts_of_analysis_witness :
  ∃ results summary,
    analyzeAllPolicies scenario6 = Ok results
    ∧ getSecuritySummary scenario6 = Ok summary
    ∧ SecurityReport.totalFlags (SecurityReport.counts results) = 2
    ∧ SecurityReport.lowSeverityFlags (SecurityReport.counts results) = 0
    ∧ SecurityReport.totalFlags (SecurityReport.counts results)
      = totalSecurityFlags summary.
Proof.
  eexists _, _. split; [vm_compute; reflexivity|].
  split; [vm_compute; reflexivity|]. split; [reflexivity|].
  edestruct (report_counts_of_analysis scenario6)
    as (_ & Htotal & _ & Hlow & _);
    [vm_compute; reflexivity | vm_compute; reflexivity |].
  split; [exact Hlow | exact Htotal].
Defined.

(** ** The text of the report *)






Section ReportText.

Context (generated : string) (ToString : value → string).
Context (totalPolicies : nat) (analysisResults : list PolicyAnalysisResult).






End ReportText.

(** * The group and role pages *)

Import EntityPage.

Lemma find_policy_by_arn (policies : list value) (arn : string) :
  Forall (λ policy, ∃ a, JS.get policy "Arn" = Ok (VStr a)) policies →
  JS.Array_find (λ policy,
    Arn ← JS.get policy "Arn"; Ok (JS.strict_equals Arn (VStr arn))) policies
  = Ok (default VUndefined
          (List.find (λ policy,
             match JS.own_property policy "Arn" with
             | Some (VStr a) => String.eqb a arn
             | _ => false
             end) policies)).
Proof.
  induction 1 as [|p policies [a Hp] _ IH]; [done|].
  cbn [JS.Array_find List.find]. rewrite Hp, IH. cbn [mbind result_bind].
  assert (JS.own_property p "Arn" = Some (VStr a)) as ->.
  { destruct p; try discriminate. simpl in *.
    destruct (props !! "Arn"); simpl in Hp; [congruence | discriminate]. }
  simpl. by destruct (String.eqb a arn).
Qed.

Lemma omap_length_le {A B : Type} (f : A → option B) (l : list A) :
  length (omap f l) ≤ length l.
Proof.
  induction l as [|a l IH]; [done|]. cbn [omap list_omap].
  destruct (f a); simpl; lia.
Qed.

Lemma find_policy_defined (policies : list value) (test : value → bool)
    (p : value) :
  Forall (λ policy, ∃ a, JS.get policy "Arn" = Ok (VStr a)) policies →
  List.find test policies = Some p → JS.strict_equals p VUndefined = false.
Proof.
  intros Hall Hfind. apply find_some in Hfind as [Hin _].
  rewrite Forall_forall in Hall.
  destruct (Hall p) as [a Ha]; [by apply list_elem_of_In|]. by destruct p.
Qed.

(** X24.  On an entity whose attachments each name a [PolicyArn], and
    policies that each have an [Arn], the page shows, in the order of the
    attachments, the first uploaded policy with the attachment's ARN; an
    attachment whose ARN no uploaded policy has is left out without a
    trace, so the page may show fewer policies than are attached. *)
Theorem attached_policies_resolved (entity : value)
    (attached : list value) (policies : list (string * value)) :
  JS.get entity "AttachedManagedPolicies" = Ok (VArr attached) →
  Forall (λ a, is_Some (attached_arn a)) attached →
  Forall (λ entry, is_Some (arn_of entry)) policies →
  attachedPolicies entity policies
  = Ok (omap (λ a, attached_arn a ≫= policy_with_arn policies) attached)
  ∧ length (omap (λ a, attached_arn a ≫= policy_with_arn policies) attached)
    ≤ length attached.
Proof.
  intros Hget Hattached Hpolicies. split; [|apply omap_length_le].
  unfold attachedPolicies. rewrite (bind_Ok _ _ _ Hget). cbn [call_map].
  assert (Forall (λ policy, ∃ a, JS.get policy "Arn" = Ok (VStr a))
            (Object_values policies)) as Hvalues.
  { unfold Object_values. change (map snd policies) with (policies.*2).
    apply Forall_fmap. eapply Forall_impl; [exact Hpolicies|].
    intros e [arn He]. exists arn. by apply (call_includes_arn e arn ""). }
  clear Hget. induction Hattached as [|a attached [arn Ha] _ IH]; [done|].
  cbn [JS.Array_map omap list_omap].
  assert (JS.get a "PolicyArn" = Ok (VStr arn)) as Hparn.
  { unfold attached_arn in Ha. destruct a; try discriminate. simpl in *.
    destruct (props !! "PolicyArn") as [[]|]; try discriminate.
    by injection Ha as ->. }
  rewrite Hparn. cbn [mbind result_bind].
  rewrite find_policy_by_arn by done. cbn [mbind result_bind].
  destruct (JS.Array_map _ attached) as [rest|] eqn:Hrest;
    cbn [mbind result_bind] in *; [|discriminate].
  injection IH as IH. rewrite Ha. cbn [mbind option_bind].
  unfold policy_with_arn at 1.
  destruct (List.find _ (Object_values policies)) as [p|] eqn:Hfind.
  - change (default VUndefined (Some p)) with p. cbn [List.filter].
    rewrite (find_policy_defined _ _ _ Hvalues Hfind). cbn [negb].
    by rewrite IH.
  - change (default VUndefined None) with VUndefined.
    cbn [List.filter JS.strict_equals negb]. by rewrite IH.
Qed.

Lemma attached_policies_resolved_witness :
  ∃ shown, attachedPolicies some_group some_policies = Ok shown
           ∧ length shown = 2.
Proof.
  eexists. split.
  - refine (proj1 (attached_policies_resolved some_group _ some_policies
                     eq_refl _ _)).
    + repeat constructor; by eexists.
    + repeat constructor; by eexists.
  - by vm_compute.
Defined.
